(** * http-helpers: middleware chaining and graceful shutdown

    A shallow embedding of the Go packages [middleware] and [server] of
    bombsimon/http-helpers, and the properties of their specification.

    Go code with effects is written in a state-and-panic monad over an
    explicit [World]; closures become Rocq functions; the goroutine of
    [GracefulShutdown] becomes a transition system driven by a schedule. *)

From Stdlib Require Import ZArith List String Bool Lia DecimalString.
From stdpp Require Import base list.
Import ListNotations.
Local Open Scope Z_scope.

Module Middleware.

(** ** Values *)

(** Go's [error], and the value carried by a panic.  Since Go 1.21 a panic
    always carries a non-nil value ([panic(nil)] raises
    [*runtime.PanicNilError]); [recover()] is [None] exactly when the
    goroutine is not panicking. *)
Definition error := string.
Definition PanicValue := string.

(** [*http.Request]: the fields the stages read. *)
Record Request := mkRequest {
  Method : string;
  RemoteAddr : string;
  URL : string;
  Proto : string;
  ContentLength : Z }.

(** [ResponseWriterWithInfo]: the mutable fields of the struct.  The embedded
    [http.ResponseWriter] is assigned once, by [NewResponseWriter], and never
    again; it travels with the pointer (see [ResponseWriter]). *)
Record ResponseWriterWithInfo := mkInfo {
  statusCode : Z;
  responseError : option error }.

(** The dynamic type of an [http.ResponseWriter] interface value:
    net/http's own writer of connection [conn], a
    [*ResponseWriterWithInfo] at address [p], or promhttp's
    [responseWriterDelegator], which forwards every call.  The delegator
    of the library also notes that the header was written and, on a
    [Write] that comes before any [WriteHeader], calls [WriteHeader(200)]
    first; the model leaves this out, so that what is said of a handler
    behind a delegator is said of bodies that write the header before they
    write ([headerBeforeWrite]). *)
Inductive ResponseWriter :=
| ServerWriter (conn : nat)
| InfoPtr (p : nat) (embedded : ResponseWriter)
| Delegator (embedded : ResponseWriter).

(** What a connection's own writer receives. *)
Inductive WireCall :=
| HeaderSet (key value : string)
| WroteHeader (code : Z)
| Wrote (body : string).

(** Logger output.  A logrus entry carries a level, a message, the fields
    and the error attached with [WithError]; the standard library's
    [log.Logger] prints lines. *)
Inductive Level := InfoLevel | ErrorLevel.
Inductive Value := VStr (s : string) | VInt (z : Z).
Record Entry := mkEntry {
  level : Level;
  msg : string;
  fields : list (string * Value);
  entryError : option error }.
Inductive Line :=
| Logrus (logger : string) (e : Entry)
| Println (logger : string) (s : string).

(** [logrus.FieldLogger] is an interface: [None] is the nil interface. *)
Definition FieldLogger := option string.

(** ** golang.org/x/time/rate

    The library is not part of the repository; [RateLimiter] uses it
    through [rate.Every], [rate.NewLimiter], [SetBurst] and [Allow], which
    are written here after the library.

    The limiter's state.  [EveryNs interval] is one token per [interval]
    nanoseconds; [Inf] admits everything.  The library holds [tokens] in a
    float64; here the count is exact, in units of 1/[interval] of a token
    (one token = [interval] units, one elapsed nanosecond = one unit).
    The library's rounding can let a request through up to a nanosecond
    before its token is due; with the exact count a request passes when
    its token is due and not before. *)
Inductive Limit := Inf | EveryNs (interval : Z).
Record Limiter := mkLimiter {
  limit : Limit;
  burst : Z;
  tokens : Z;
  last : Z }.

(** ** prometheus *)
Inductive MetricEvent :=
| GaugeInc (name : string)
| GaugeDec (name : string)
| Observe (name : string) (labels : list (string * string)) (value : Z)
| CounterInc (name : string) (labelValues : list string).

(** ** The world a handler runs in *)
Record World := mkWorld {
  clock : Z;                          (* time.Now(), in nanoseconds *)
  writers : list ResponseWriterWithInfo; (* the heap of wrapper structs *)
  wire : list (nat * WireCall);       (* calls that reached a connection *)
  output : list Line;                 (* what the loggers wrote *)
  limiters : list Limiter;            (* the heap of rate limiters *)
  metricsRegisterOnce : bool;         (* package variable: the Once is done *)
  registry : list string;             (* prometheus.DefaultRegisterer *)
  metrics : list MetricEvent;         (* updates of the collectors *)
  conns : nat }.                      (* connections the server accepted *)

Definition with_clock (t : Z) (st : World) : World :=
  mkWorld t (writers st) (wire st) (output st) (limiters st)
          (metricsRegisterOnce st) (registry st) (metrics st) (conns st).
Definition with_writers (h : list ResponseWriterWithInfo) (st : World) : World :=
  mkWorld (clock st) h (wire st) (output st) (limiters st)
          (metricsRegisterOnce st) (registry st) (metrics st) (conns st).
Definition with_wire (l : list (nat * WireCall)) (st : World) : World :=
  mkWorld (clock st) (writers st) l (output st) (limiters st)
          (metricsRegisterOnce st) (registry st) (metrics st) (conns st).
Definition with_output (l : list Line) (st : World) : World :=
  mkWorld (clock st) (writers st) (wire st) l (limiters st)
          (metricsRegisterOnce st) (registry st) (metrics st) (conns st).
Definition with_limiters (l : list Limiter) (st : World) : World :=
  mkWorld (clock st) (writers st) (wire st) (output st) l
          (metricsRegisterOnce st) (registry st) (metrics st) (conns st).
Definition with_once (b : bool) (st : World) : World :=
  mkWorld (clock st) (writers st) (wire st) (output st) (limiters st)
          b (registry st) (metrics st) (conns st).
Definition with_registry (l : list string) (st : World) : World :=
  mkWorld (clock st) (writers st) (wire st) (output st) (limiters st)
          (metricsRegisterOnce st) l (metrics st) (conns st).
Definition with_metrics (l : list MetricEvent) (st : World) : World :=
  mkWorld (clock st) (writers st) (wire st) (output st) (limiters st)
          (metricsRegisterOnce st) (registry st) l (conns st).
Definition with_conns (n : nat) (st : World) : World :=
  mkWorld (clock st) (writers st) (wire st) (output st) (limiters st)
          (metricsRegisterOnce st) (registry st) (metrics st) n.

Definition emptyWorld : World := mkWorld 0 [] [] [] [] false [] [] 0.

(** ** Computations: state passing, with panics *)
Inductive Result (A : Type) :=
| Returned (a : A) (st : World)
| Panicked (v : PanicValue) (st : World).
Arguments Returned {A} a st.
Arguments Panicked {A} v st.

Definition M (A : Type) := World -> Result A.

Definition ret {A} (a : A) : M A := fun st => Returned a st.
Definition bind {A B} (c : M A) (k : A -> M B) : M B := fun st =>
  match c st with
  | Returned a st' => k a st'
  | Panicked v st' => Panicked v st'
  end.
Definition panic {A} (v : PanicValue) : M A := fun st => Panicked v st.
Definition get : M World := fun st => Returned st st.
Definition modify (f : World -> World) : M unit := fun st => Returned tt (f st).

Notation "x <- c ;; k" := (bind c (fun x => k))
  (at level 100, c at next level, right associativity).
Notation "c ;;; k" := (bind c (fun _ => k))
  (at level 100, right associativity).

(** [defer func() { ... recover() ... }()]: the deferred function runs when
    the body returns or panics; it is given what [recover()] returns there,
    and a recovered panic does not propagate.  A panic of the deferred
    function itself does. *)
Definition defer_recover (body : M unit) (deferred : option PanicValue -> M unit)
  : M unit := fun st =>
  match body st with
  | Returned _ st' => deferred None st'
  | Panicked v st' => deferred (Some v) st'
  end.

(** [defer f()] where [f] does not recover: [f] runs on both exits and a
    panic of the body goes on after it. *)
Definition defer_ {A} (deferred : M unit) (body : M A) : M A := fun st =>
  match body st with
  | Returned a st' => (deferred ;;; ret a) st'
  | Panicked v st' => (deferred ;;; panic v) st'
  end.

Definition nilDereference : PanicValue :=
  "runtime error: invalid memory address or nil pointer dereference"%string.

(** ** net/http *)
Definition Handler := ResponseWriter -> Request -> M unit.

Definition StatusOK : Z := 200.
Definition StatusTooManyRequests : Z := 429.
Definition StatusText (code : Z) : string :=
  if code =? 429 then "Too Many Requests"%string
  else if code =? 200 then "OK"%string else ""%string.

Fixpoint connOf (w : ResponseWriter) : nat :=
  match w with
  | ServerWriter c => c
  | InfoPtr _ e => connOf e
  | Delegator e => connOf e
  end.

Definition send (w : ResponseWriter) (c : WireCall) : M unit :=
  modify (fun st => with_wire (wire st ++ [(connOf w, c)]) st).

(** [w.Header().Set(k, v)] and [w.Write(b)]: neither wrapper overrides
    them, so they reach the connection. *)
Definition SetHeader (w : ResponseWriter) (k v : string) : M unit :=
  send w (HeaderSet k v).
Definition Write (w : ResponseWriter) (b : string) : M unit :=
  send w (Wrote b).

Definition setStatusCode (p : nat) (code : Z) : M unit :=
  modify (fun st =>
    match writers st !! p with
    | Some i => with_writers (<[p := mkInfo code (responseError i)]> (writers st)) st
    | None => st
    end).

(** [func (r *ResponseWriterWithInfo) WriteHeader(code int)], reached by
    dynamic dispatch on the interface value.  On its own writer net/http
    panics when the header is not yet written and [code] is outside
    100..999; the model records the call, so that what is said of the
    response a client gets is said of bodies with the codes net/http
    accepts ([validCodes]). *)
Fixpoint WriteHeader (w : ResponseWriter) (code : Z) : M unit :=
  match w with
  | ServerWriter _ => send w (WroteHeader code)
  | InfoPtr p e => setStatusCode p code ;;; WriteHeader e code
  | Delegator e => WriteHeader e code
  end.

(** [func (r *ResponseWriterWithInfo) WriteError(err error)]. *)
Definition WriteError (p : nat) (err : error) : M unit :=
  modify (fun st =>
    match writers st !! p with
    | Some i => with_writers (<[p := mkInfo (statusCode i) (Some err)]> (writers st)) st
    | None => st
    end).

(** [func NewResponseWriter(r http.ResponseWriter) *ResponseWriterWithInfo]. *)
Definition NewResponseWriter (r : ResponseWriter) : M ResponseWriter :=
  match r with
  | InfoPtr p e => ret (InfoPtr p e)
  | _ => fun st =>
      Returned (InfoPtr (length (writers st)) r)
               (with_writers (writers st ++ [mkInfo StatusOK None]) st)
  end.

(** Reading [rw.statusCode] and [rw.responseError]. *)
Definition readInfo (rw : ResponseWriter) : M ResponseWriterWithInfo := fun st =>
  match rw with
  | InfoPtr p _ =>
      match writers st !! p with
      | Some i => Returned i st
      | None => Panicked nilDereference st
      end
  | _ => Panicked nilDereference st
  end.

Definition newline : string := String (Ascii.ascii_of_nat 10) EmptyString.

(** [http.Error(w, error, code)]: [fmt.Fprintln] ends the body with a
    newline. *)
Definition Error (w : ResponseWriter) (err : string) (code : Z) : M unit :=
  SetHeader w "Content-Type" "text/plain; charset=utf-8" ;;;
  SetHeader w "X-Content-Type-Options" "nosniff" ;;;
  WriteHeader w code ;;;
  Write w (String.append err newline).

(** A code net/http sends as an informational response, after which the
    header is still to be written: 1xx other than 101. *)
Definition informational (code : Z) : bool :=
  (100 <=? code) && (code <=? 199) && negb (code =? 101).

(** The status net/http sends for a connection: that of the first
    [WriteHeader] that is not informational; a [Write] before any, or
    nothing at all, sends 200. *)
Fixpoint responseStatus (conn : nat) (calls : list (nat * WireCall)) : Z :=
  match calls with
  | [] => StatusOK
  | (c, WroteHeader code) :: rest =>
      if Nat.eqb c conn
      then (if informational code then responseStatus conn rest else code)
      else responseStatus conn rest
  | (c, Wrote _) :: rest =>
      if Nat.eqb c conn then StatusOK else responseStatus conn rest
  | _ :: rest => responseStatus conn rest
  end.

(** ** Loggers *)
Definition emit (l : Line) : M unit :=
  modify (fun st => with_output (output st ++ [l]) st).

(** A method call on a nil interface panics. *)
Definition logEntry (logger : FieldLogger) (e : Entry) : M unit :=
  match logger with
  | Some name => emit (Logrus name e)
  | None => panic nilDereference
  end.

Definition Errorf (logger : FieldLogger) (m : string) : M unit :=
  logEntry logger (mkEntry ErrorLevel m [] None).

(** [time.Now()] and [time.Since]. *)
Definition Now : M Z := fun st => Returned (clock st) st.
Definition Since (t : Z) : M Z := fun st => Returned (clock st - t) st.

(** ** middleware.go *)

(** [type Middleware func(http.Handler) http.Handler]. *)
Definition Middleware := Handler -> Handler.

(** [func AddMiddlewares(h http.Handler, middlewares ...Middleware)]:
    the loop [for _, middleware := range middlewares { h = middleware(h) }]. *)
Definition AddMiddlewares (h : Handler) (middlewares : list Middleware) : Handler :=
  fold_left (fun h middleware => middleware h) middlewares h.

(** [func Logger(logger logrus.FieldLogger) Middleware]. *)
Definition Logger (logger : FieldLogger) : Middleware := fun h w r =>
  rw <- NewResponseWriter w ;;
  startTime <- Now ;;
  h rw r ;;;
  info <- readInfo rw ;;
  elapsed <- Since startTime ;;
  let log := [("method", VStr (Method r));
              ("remote_address", VStr (RemoteAddr r));
              ("path", VStr (URL r));
              ("protocol", VStr (Proto r));
              ("content_length", VInt (ContentLength r));
              ("status", VInt (statusCode info));
              ("elapsed", VInt elapsed)]%string in
  match responseError info with
  | Some err => logEntry logger (mkEntry ErrorLevel "request processed" log (Some err))
  | None => logEntry logger (mkEntry InfoLevel "request processed" log None)
  end.

(** [func PanicRecovery(logger logrus.FieldLogger) Middleware]. *)
Definition PanicRecovery (logger : FieldLogger) : Middleware := fun h w r =>
  defer_recover (h w r) (fun recovered =>
    match recovered with
    | Some v => Errorf logger (String.append "panic recovered: " v)
    | None => ret tt
    end).

(** ** sync.Once, prometheus, promauto and promhttp

    These libraries are not part of the repository either.  What
    [Prometheus] uses of them is written here after the libraries: a
    collector is registered under its name, once; a nil collector panics
    where it is first dereferenced; an instrumented handler runs the next
    handler and records what it observed.  Durations are observed in
    nanoseconds. *)

(** The four local variables of [Prometheus] that its closure captures; a
    nil pointer or nil interface is [None], a collector is known by its
    name. *)
Record Collectors := mkCollectors {
  inFlightGauge : option string;
  counter : option string;
  duration : option string;
  responseSize : option string }.

(** [var ( inFlightGauge prometheus.Gauge; ... )]: zero values. *)
Definition nilCollectors : Collectors := mkCollectors None None None None.

(** [metricsRegisterOnce.Do(f)].  [f] assigns the variables it captures:
    its result stands for their new values, and [unset] for the values
    they keep when the Once is spent.  The Once is marked done whether
    [f] returns or panics. *)
Definition Do {A} (unset : A) (f : M A) : M A := fun st =>
  if metricsRegisterOnce st then Returned unset st
  else match f st with
       | Returned a st' => Returned a (with_once true st')
       | Panicked v st' => Panicked v (with_once true st')
       end.

(** [promauto.NewGauge], [NewCounterVec], [NewHistogramVec]: create the
    collector and [MustRegister] it with the default registry, which
    panics when a collector of that name is registered already. *)
Definition promautoNew (name : string) : M (option string) := fun st =>
  if existsb (String.eqb name) (registry st)
  then Panicked "duplicate metrics collector registration attempted"%string st
  else Returned (Some name) (with_registry (registry st ++ [name]) st).

(** [prometheus.ObserverVec]: a histogram with the labels curried so far. *)
Definition ObserverVec := option (string * list (string * string)).
Definition asObserver (h : option string) : ObserverVec :=
  match h with Some name => Some (name, []) | None => None end.

Definition record (e : MetricEvent) : M unit :=
  modify (fun st => with_metrics (metrics st ++ [e]) st).

(** Bytes written to a connection so far. *)
Fixpoint written (conn : nat) (calls : list (nat * WireCall)) : Z :=
  match calls with
  | [] => 0
  | (c, Wrote b) :: rest =>
      (if Nat.eqb c conn then Z.of_nat (String.length b) else 0) + written conn rest
  | _ :: rest => written conn rest
  end.

(** [promhttp.InstrumentHandlerResponseSize(obs, next)]: [checkLabels]
    calls [obs.Describe], which dereferences the vector; the handler gives
    [next] a delegator and observes what was written through it. *)
Definition InstrumentHandlerResponseSize (obs : ObserverVec) (next : Handler)
  : M Handler :=
  match obs with
  | None => panic nilDereference
  | Some (name, labels) => ret (fun w r =>
      st0 <- get ;;
      next (Delegator w) r ;;;
      st1 <- get ;;
      record (Observe name labels
                (written (connOf w) (wire st1) - written (connOf w) (wire st0))))
  end.

(** [promhttp.InstrumentHandlerInFlight(g, next)]:
    [g.Inc(); defer g.Dec(); next.ServeHTTP(w, r)]. *)
Definition InstrumentHandlerInFlight (g : option string) (next : Handler)
  : M Handler :=
  ret (fun w r =>
    match g with
    | None => panic nilDereference
    | Some name =>
        record (GaugeInc name) ;;;
        defer_ (record (GaugeDec name)) (next w r)
    end).

(** [HistogramVec.MustCurryWith(labels)]. *)
Definition MustCurryWith (h : option string) (labels : list (string * string))
  : M ObserverVec :=
  match h with
  | None => panic nilDereference
  | Some name => ret (Some (name, labels))
  end.

(** [promhttp.InstrumentHandlerDuration(obs, next)]: the observer has no
    label left for the status code, so [next] is given the writer itself. *)
Definition InstrumentHandlerDuration (obs : ObserverVec) (next : Handler)
  : M Handler :=
  match obs with
  | None => panic nilDereference
  | Some (name, labels) => ret (fun w r =>
      now <- Now ;;
      next w r ;;;
      elapsed <- Since now ;;
      record (Observe name labels elapsed))
  end.

(** [counter.WithLabelValues(lvs...).Inc()]. *)
Definition Inc (c : option string) (lvs : list string) : M unit :=
  match c with
  | None => panic nilDereference
  | Some name => record (CounterInc name lvs)
  end.

(** [strconv.Itoa]. *)
Definition Itoa (z : Z) : string := NilZero.string_of_int (Z.to_int z).

(** The function given to [metricsRegisterOnce.Do]. *)
Definition registerCollectors : M Collectors :=
  g <- promautoNew "in_flight_requests" ;;
  c <- promautoNew "http_requests_total" ;;
  d <- promautoNew "request_duration_seconds" ;;
  s <- promautoNew "response_size_bytes" ;;
  ret (mkCollectors g c d s).

(** The closure [Prometheus] returns, over the four variables it
    captures. *)
Definition prometheusStage (c : Collectors) : Middleware := fun h w r =>
  let handler := h in
  handler <- InstrumentHandlerResponseSize (asObserver (responseSize c)) handler ;;
  handler <- InstrumentHandlerInFlight (inFlightGauge c) handler ;;
  curried <- MustCurryWith (duration c) [("method"%string, Method r)] ;;
  handler <- InstrumentHandlerDuration curried handler ;;
  rw <- NewResponseWriter w ;;
  handler rw r ;;;
  info <- readInfo rw ;;
  Inc (counter c) [Itoa (statusCode info); Method r].

(** [func Prometheus() Middleware]. *)
Definition Prometheus : M Middleware :=
  c <- Do nilCollectors registerCollectors ;;
  ret (prometheusStage c).

(** ** rate.Limiter *)

(** [rate.Every(interval)]. *)
Definition Every (interval : Z) : Limit :=
  if interval <=? 0 then Inf else EveryNs interval.

(** One token, in the units of [tokens]. *)
Definition tokenOf (r : Limit) : Z :=
  match r with EveryNs i => i | Inf => 1 end.
Definition token (lim : Limiter) : Z := tokenOf (limit lim).

(** [rate.NewLimiter(r, b)]: a bucket of size [b], initially full. *)
Definition NewLimiter (r : Limit) (b : Z) : M nat := fun st =>
  Returned (length (limiters st))
           (with_limiters (limiters st ++ [mkLimiter r b (b * tokenOf r) (clock st)]) st).

(** [Limiter.advance(now)]: the state the bucket has at [now], time
    having passed since [last]; the count is capped at [burst].  Under
    [Inf] the count is never read. *)
Definition advance (lim : Limiter) (now : Z) : Z * Z :=
  let last' := if now <? last lim then now else last lim in
  let elapsed := now - last' in
  let tokens' := tokens lim + elapsed in
  let cap := burst lim * token lim in
  (last', if cap <? tokens' then cap else tokens').

(** [Limiter.reserveN(now, 1, 0)], the decision behind [Allow]: with
    [n = 1] and no waiting allowed, the request passes when [n <= burst]
    and a whole token is there; the token is then taken.  A refused
    request leaves the count as it was. *)
Definition reserveN (lim : Limiter) (now : Z) : bool * Limiter :=
  match limit lim with
  | Inf => (true, lim)
  | EveryNs i =>
      let '(last', tokens') := advance lim now in
      let tokens' := tokens' - i in
      let ok := (1 <=? burst lim) && (0 <=? tokens') in
      if ok then (true, mkLimiter (limit lim) (burst lim) tokens' now)
      else (false, mkLimiter (limit lim) (burst lim) (tokens lim) last')
  end.

(** [Limiter.SetBurst(newBurst)]. *)
Definition SetBurstAt (lim : Limiter) (now newBurst : Z) : Limiter :=
  let '(_, tokens') := advance lim now in
  mkLimiter (limit lim) newBurst tokens' now.

Definition withLimiter {A} (p : nat) (f : Limiter -> Z -> A * Limiter) : M A :=
  fun st =>
  match limiters st !! p with
  | Some lim =>
      let '(a, lim') := f lim (clock st) in
      Returned a (with_limiters (<[p := lim']> (limiters st)) st)
  | None => Panicked nilDereference st
  end.

Definition SetBurst (p : nat) (newBurst : Z) : M unit :=
  withLimiter p (fun lim now => (tt, SetBurstAt lim now newBurst)).

(** [Limiter.Allow()]. *)
Definition Allow (p : nat) : M bool := withLimiter p reserveN.

(** The closure [RateLimiter] returns, over the limiter it captures. *)
Definition rateLimiterStage (limiter : nat) : Middleware := fun h w r =>
  ok <- Allow limiter ;;
  if negb ok
  then Error w (StatusText StatusTooManyRequests) StatusTooManyRequests
  else h w r.

(** [func RateLimiter(interval time.Duration, limit, burst int) Middleware]. *)
Definition RateLimiter (interval limit burst : Z) : M Middleware :=
  limiter <- NewLimiter (Every interval) limit ;;
  SetBurst limiter burst ;;;
  ret (rateLimiterStage limiter).

(** ** Handlers and the server that calls them *)

(** What the body of a terminal handler does with the writer it is given. *)
Inductive Stmt :=
| CallWriteHeader (code : Z)           (* w.WriteHeader(code) *)
| CallWrite (b : string)               (* w.Write(b), fmt.Fprintf(w, b) *)
| CallWriteError (err : error)         (* NewResponseWriter(w).WriteError(err) *)
| CallPrintln (logger s : string)      (* logger.Println(s) *)
| CallSleep (d : Z)                    (* time.Sleep(d) *)
| CallPanic (v : PanicValue).          (* panic(v) *)

Definition Sleep (d : Z) : M unit :=
  modify (fun st => with_clock (clock st + Z.max 0 d) st).

Definition execStmt (w : ResponseWriter) (s : Stmt) : M unit :=
  match s with
  | CallWriteHeader code => WriteHeader w code
  | CallWrite b => Write w b
  | CallWriteError err =>
      rw <- NewResponseWriter w ;;
      match rw with InfoPtr p _ => WriteError p err | _ => ret tt end
  | CallPrintln logger s => emit (Println logger s)
  | CallSleep d => Sleep d
  | CallPanic v => panic v
  end.

(** [http.HandlerFunc(func(w, r) { body })]. *)
Fixpoint HandlerFunc (body : list Stmt) : Handler := fun w r =>
  match body with
  | [] => ret tt
  | s :: rest => execStmt w s ;;; HandlerFunc rest w r
  end.

(** The stage of [Test_Order]: it prints its name before and after the
    next handler. *)
Definition createMiddleware (logger logString : string) : Middleware :=
  fun h rw r =>
    emit (Println logger logString) ;;;
    h rw r ;;;
    emit (Println logger logString).

(** One request through net/http: a fresh connection's writer is handed to
    the handler; the client sees the status of the response, or no
    response when the handler panicked (the server recovers and closes
    the connection). *)
Definition serve (h : Handler) (r : Request) : M (option Z) := fun st =>
  let conn := conns st in
  match h (ServerWriter conn) r (with_conns (S conn) st) with
  | Returned _ st' => Returned (Some (responseStatus conn (wire st'))) st'
  | Panicked _ st' => Returned None st'
  end.

(** [n] requests, one after the other, with no delay between them. *)
Fixpoint serveN (n : nat) (h : Handler) (r : Request) : M (list (option Z)) :=
  match n with
  | O => ret []
  | S k => s <- serve h r ;; rest <- serveN k h r ;; ret (s :: rest)
  end.

(** ** Notions the properties are stated with *)

(** The world a computation ends in, returned or panicked. *)
Definition worldOf {A} (res : Result A) : World :=
  match res with Returned _ st => st | Panicked _ st => st end.

(** What a body leaves in the wrapper it is given: each [WriteHeader]
    overwrites the status, each [WriteError] the error, up to the first
    panic. *)
Fixpoint recorded (body : list Stmt) (i : ResponseWriterWithInfo)
  : ResponseWriterWithInfo :=
  match body with
  | [] => i
  | CallWriteHeader code :: rest => recorded rest (mkInfo code (responseError i))
  | CallWriteError err :: rest => recorded rest (mkInfo (statusCode i) (Some err))
  | CallPanic _ :: _ => i
  | _ :: rest => recorded rest i
  end.

Definition isWriteHeader (s : Stmt) : bool :=
  match s with CallWriteHeader _ => true | _ => false end.
Definition isPanic (s : Stmt) : bool :=
  match s with CallPanic _ => true | _ => false end.

(** The body never calls [WriteHeader]; the body never panics. *)
Definition neverWritesHeader (body : list Stmt) : bool :=
  forallb (fun s => negb (isWriteHeader s)) body.
Definition neverPanics (body : list Stmt) : bool :=
  forallb (fun s => negb (isPanic s)) body.

(** The lines a body prints, up to the first panic. *)
Fixpoint printed (body : list Stmt) : list Line :=
  match body with
  | [] => []
  | CallPrintln logger s :: rest => Println logger s :: printed rest
  | CallPanic _ :: _ => []
  | _ :: rest => printed rest
  end.

(** [logger.Println] of each name in turn. *)
Fixpoint printAll (logger : string) (names : list string) : M unit :=
  match names with
  | [] => ret tt
  | n :: rest => emit (Println logger n) ;;; printAll logger rest
  end.

(** A field of a logrus entry. *)
Fixpoint lookupField (key : string) (fs : list (string * Value)) : option Value :=
  match fs with
  | [] => None
  | (k, v) :: rest => if String.eqb k key then Some v else lookupField key rest
  end.

(** The entry [Logger] writes for a request, given what the wrapper
    holds when the next handler has returned. *)
Definition requestEntry (r : Request) (i : ResponseWriterWithInfo) (elapsed : Z)
  : Entry :=
  mkEntry (match responseError i with Some _ => ErrorLevel | None => InfoLevel end)
          "request processed"
          [("method", VStr (Method r));
           ("remote_address", VStr (RemoteAddr r));
           ("path", VStr (URL r));
           ("protocol", VStr (Proto r));
           ("content_length", VInt (ContentLength r));
           ("status", VInt (statusCode i));
           ("elapsed", VInt elapsed)]%string
          (responseError i).

(** Every call on the wire belongs to a connection the server accepted:
    the writer of the next connection is unused. *)
Definition wireFresh (st : World) : Prop :=
  forall c call, In (c, call) (wire st) -> (c < conns st)%nat.

(** The constructor called [n] times. *)
Fixpoint constructN (n : nat) : M (list Middleware) :=
  match n with
  | O => ret []
  | S k => m <- Prometheus ;; rest <- constructN k ;; ret (m :: rest)
  end.

Definition collectorNames : list string :=
  ["in_flight_requests"; "http_requests_total";
   "request_duration_seconds"; "response_size_bytes"]%string.

(** [WriteHeader] changes status codes only, and keeps every wrapper:
    [ws'] is [ws] with some status codes set to [code]. *)
Definition statusUpdate (code : Z) (ws ws' : list ResponseWriterWithInfo) : Prop :=
  length ws' = length ws
  /\ forall p i, ws !! p = Some i ->
       exists c, ws' !! p = Some (mkInfo c (responseError i))
                 /\ (c = code \/ c = statusCode i).

(** Nothing was sent on the connection yet. *)
Definition unused (conn : nat) (calls : list (nat * WireCall)) : Prop :=
  forall call, ~ In (conn, call) calls.

(** The tokens the bucket holds at [now]. *)
Definition avail (lim : Limiter) (now : Z) : Z := snd (advance lim now).

(** The calls of [http.Error(w, "Too Many Requests", 429)]. *)
Definition tooManyRequests : list WireCall :=
  [HeaderSet "Content-Type" "text/plain; charset=utf-8";
   HeaderSet "X-Content-Type-Options" "nosniff";
   WroteHeader StatusTooManyRequests;
   Wrote (String.append "Too Many Requests" newline)].

(** A request, for the examples. *)
Definition anyRequest : Request := mkRequest "GET" "[::1]:4080" "/" "HTTP/1.1" 0.

(** The collectors the first call of [Prometheus] assigns. *)
Definition registered : Collectors :=
  mkCollectors (Some "in_flight_requests"%string) (Some "http_requests_total"%string)
               (Some "request_duration_seconds"%string)
               (Some "response_size_bytes"%string).


(** ** More notions: what a handler body sends, and requests over time *)

(** The calls a body makes on the connection, up to the first panic. *)
Fixpoint sent (body : list Stmt) : list WireCall :=
  match body with
  | [] => []
  | CallWriteHeader code :: rest => WroteHeader code :: sent rest
  | CallWrite b :: rest => Wrote b :: sent rest
  | CallPanic _ :: _ => []
  | _ :: rest => sent rest
  end.

(** The time a body sleeps, up to the first panic. *)
Fixpoint slept (body : list Stmt) : Z :=
  match body with
  | [] => 0
  | CallSleep d :: rest => Z.max 0 d + slept rest
  | CallPanic _ :: _ => 0
  | _ :: rest => slept rest
  end.

(** The value a body panics with, when it does. *)
Fixpoint panicOf (body : list Stmt) : option PanicValue :=
  match body with
  | [] => None
  | CallPanic v :: _ => Some v
  | _ :: rest => panicOf rest
  end.

Definition isWriteError (s : Stmt) : bool :=
  match s with CallWriteError _ => true | _ => false end.
Definition isWrite (s : Stmt) : bool :=
  match s with CallWrite _ => true | _ => false end.

(** The body never calls [WriteError]; the body never calls [Write]. *)
Definition neverWritesError (body : list Stmt) : bool :=
  forallb (fun s => negb (isWriteError s)) body.
Definition neverWrites (body : list Stmt) : bool :=
  forallb (fun s => negb (isWrite s)) body.


(** The status the client of connection [conn] gets when the handler made
    the calls [calls] on a connection unused before. *)
Definition statusSent (conn : nat) (calls : list WireCall) : Z :=
  responseStatus conn (map (pair conn) calls).

(** Requests sent one after the other, each after waiting the given
    delay. *)
Fixpoint serveEach (delays : list Z) (h : Handler) (r : Request)
  : M (list (option Z)) :=
  match delays with
  | [] => ret []
  | d :: rest =>
      Sleep d ;;;
      s <- serve h r ;;
      ss <- serveEach rest h r ;;
      ret (s :: ss)
  end.

(** Two worlds that agree on all but the clock, the wrappers, the wire
    and the loggers' output. *)
Definition sameElsewhere (st st' : World) : Prop :=
  limiters st' = limiters st /\ metrics st' = metrics st
  /\ registry st' = registry st
  /\ metricsRegisterOnce st' = metricsRegisterOnce st
  /\ conns st' = conns st.

(** The entry [PanicRecovery] writes. *)
Definition panicEntry (v : PanicValue) : Entry :=
  mkEntry ErrorLevel (String.append "panic recovered: " v) [] None.

(** Every code the body gives to [WriteHeader] is one net/http accepts. *)
Definition validCode (s : Stmt) : bool :=
  match s with
  | CallWriteHeader code => (100 <=? code) && (code <=? 999)
  | _ => true
  end.
Definition validCodes (body : list Stmt) : bool := forallb validCode body.


(** The sharing the specification expects of two stages, [inner] running
    inside [outer]: a request makes one wrapper, which both use. *)
Definition oneRecordPerRequest (outer inner : Middleware) : Prop :=
  forall body conn r st,
    neverPanics body = true ->
    length (writers (worldOf (outer (inner (HandlerFunc body))
                                (ServerWriter conn) r st)))
    = S (length (writers st)).

End Middleware.

(** The file [middleware.go] as it was before the response wrapper: its
    [AddMiddlewares] and [PanicRecovery] are those above; its [Logger]
    hands the writer on as it is and logs no status. *)
Module Legacy.
Import Middleware.

(** [func Logger(logger logrus.FieldLogger) Middleware]. *)
Definition Logger (logger : FieldLogger) : Middleware := fun h w r =>
  startTime <- Now ;;
  h w r ;;;
  elapsed <- Since startTime ;;
  logEntry logger
    (mkEntry InfoLevel "request processed"
       [("method", VStr (Method r));
        ("remote_address", VStr (RemoteAddr r));
        ("path", VStr (URL r));
        ("protocol", VStr (Proto r));
        ("content_length", VInt (ContentLength r));
        ("elapsed", VInt elapsed)]%string
       None).

(** An entry without its status field. *)
Definition withoutStatus (e : Entry) : Entry :=
  mkEntry (level e) (msg e)
          (List.filter (fun kv => negb (String.eqb (fst kv) "status")) (fields e))
          (entryError e).

End Legacy.


Module Server.

(** ** server.go *)

Definition error := string.

(** The termination signals [GracefulShutdown] subscribes to. *)
Inductive Signal := SIGINT | SIGTERM.

Definition Signal_eqb (a b : Signal) : bool :=
  match a, b with
  | SIGINT, SIGINT | SIGTERM, SIGTERM => true
  | _, _ => false
  end.

(** [ShutdownLogger] is an interface: [None] is the nil interface. *)
Definition ShutdownLogger := option string.

(** [*http.Server], as far as the coordinator uses it: what
    [server.Shutdown(ctx)] returns for a context with the given timeout
    ([None] is a nil error). *)
Record Server := mkServer { Shutdown : Z -> option error }.

(** What the goroutine does that can be observed from outside it. *)
Inductive Action :=
| Notify (sig : Signal)                 (* signal.Notify(gracefulStop, sig) *)
| Receive (sig : Signal)                (* <-gracefulStop *)
| LogInfof (logger msg : string)        (* logger.Infof(...) *)
| CallShutdown (timeout : Z)            (* server.Shutdown(ctx), returned *)
| LogErrorf (logger msg : string)       (* logger.Errorf(...) *)
| CloseIdleConnsClosed                  (* close(idleConnsClosed) *)
| CancelFunc.                           (* the deferred cancelFunc() *)

(** Where the goroutine stands in [go func() { ... }()]. *)
Inductive Pc :=
| AtMake                 (* gracefulStop := make(chan os.Signal, 1) *)
| AtNotifyTerm           (* signal.Notify(gracefulStop, syscall.SIGTERM) *)
| AtNotifyInt            (* signal.Notify(gracefulStop, syscall.SIGINT) *)
| AtReceive              (* <-gracefulStop *)
| AtInfof                (* if logger != nil { logger.Infof(...) } *)
| AtShutdown             (* ctx, cancelFunc := ...; err := server.Shutdown(ctx) *)
| AtErrorf (err : error) (* err != nil: if logger != nil { logger.Errorf(...) } *)
| AtClose                (* close(idleConnsClosed) *)
| AtCancel               (* the deferred cancelFunc() *)
| Exited.

(** How the process can stop short: a signal nobody subscribed to takes
    its default action, or the goroutine panics. *)
Inductive Fault :=
| KilledBy (sig : Signal)
| NilDereference
| CloseOfClosedChannel.

Record State := mkState {
  pc : Pc;
  subscribed : list Signal;       (* signals routed to gracefulStop *)
  gracefulStop : list Signal;     (* the channel's buffer, capacity 1 *)
  idleConnsClosed : bool;         (* the returned channel is closed *)
  trace : list Action;
  fault : option Fault }.

Definition goto (p : Pc) (s : State) : State :=
  mkState p (subscribed s) (gracefulStop s) (idleConnsClosed s) (trace s) (fault s).
Definition act (a : Action) (s : State) : State :=
  mkState (pc s) (subscribed s) (gracefulStop s) (idleConnsClosed s)
          (trace s ++ [a]) (fault s).
Definition crash (f : Fault) (s : State) : State :=
  mkState (pc s) (subscribed s) (gracefulStop s) (idleConnsClosed s)
          (trace s) (Some f).

(** [signal.Notify(gracefulStop, sig)]. *)
Definition signalNotify (sig : Signal) (s : State) : State :=
  act (Notify sig)
      (mkState (pc s) (subscribed s ++ [sig]) (gracefulStop s)
               (idleConnsClosed s) (trace s) (fault s)).

(** A method call on the logger; on a nil interface it panics. *)
Definition callLogger (logger : ShutdownLogger) (mk : string -> Action)
    (s : State) : State :=
  match logger with
  | Some name => act (mk name) s
  | None => crash NilDereference s
  end.

Definition isNil (logger : ShutdownLogger) : bool :=
  match logger with None => true | Some _ => false end.

(** [close(idleConnsClosed)]; closing a closed channel panics. *)
Definition closeChannel (s : State) : State :=
  if idleConnsClosed s then crash CloseOfClosedChannel s
  else act CloseIdleConnsClosed
         (mkState (pc s) (subscribed s) (gracefulStop s) true (trace s) (fault s)).

Definition drainMsg : string := "shutting down server, draining connections".
Definition errorMsg (err : error) : string :=
  String.append "could not shut down server gracefully: " err.

(** The state [GracefulShutdown] leaves behind when it returns the
    channel: the goroutine is started and has not run yet. *)
Definition GracefulShutdown : State := mkState AtMake [] [] false [] None.

Section Coordinator.

Variable server : Server.
Variable waitTime : Z.
Variable logger : ShutdownLogger.

(** One step of the goroutine.  A receive on the empty channel blocks. *)
Definition step (s : State) : State :=
  match fault s with
  | Some _ => s
  | None =>
    match pc s with
    | AtMake => goto AtNotifyTerm s
    | AtNotifyTerm => goto AtNotifyInt (signalNotify SIGTERM s)
    | AtNotifyInt => goto AtReceive (signalNotify SIGINT s)
    | AtReceive =>
        match gracefulStop s with
        | [] => s
        | sig :: rest =>
            goto AtInfof
              (act (Receive sig)
                 (mkState (pc s) (subscribed s) rest (idleConnsClosed s)
                          (trace s) (fault s)))
        end
    | AtInfof =>
        goto AtShutdown
          (if negb (isNil logger) then callLogger logger (fun l => LogInfof l drainMsg) s
           else s)
    | AtShutdown =>
        match Shutdown server waitTime with
        | Some err => goto (AtErrorf err) (act (CallShutdown waitTime) s)
        | None => goto AtClose (act (CallShutdown waitTime) s)
        end
    | AtErrorf err =>
        goto AtClose
          (if negb (isNil logger)
           then callLogger logger (fun l => LogErrorf l (errorMsg err)) s
           else s)
    | AtClose => goto AtCancel (closeChannel s)
    | AtCancel => goto Exited (act CancelFunc s)
    | Exited => s
    end
  end.

(** The operating system delivers a signal: to the channel when the
    signal is subscribed (the send does not block: a full buffer drops
    it), and otherwise the process exits. *)
Definition deliver (sig : Signal) (s : State) : State :=
  match fault s with
  | Some _ => s
  | None =>
    if existsb (Signal_eqb sig) (subscribed s) then
      if (length (gracefulStop s) <? 1)%nat
      then mkState (pc s) (subscribed s) (gracefulStop s ++ [sig])
                   (idleConnsClosed s) (trace s) (fault s)
      else s
    else crash (KilledBy sig) s
  end.

(** What happens next is the scheduler's choice. *)
Inductive Event := Deliver (sig : Signal) | Run.

Definition next (s : State) (e : Event) : State :=
  match e with
  | Deliver sig => deliver sig s
  | Run => step s
  end.

Definition exec (schedule : list Event) (s : State) : State :=
  fold_left next schedule s.

(** ** Notions the properties are stated with *)

Definition isShutdown (a : Action) : bool :=
  match a with CallShutdown _ => true | _ => false end.
Definition isClose (a : Action) : bool :=
  match a with CloseIdleConnsClosed => true | _ => false end.
Definition isReceive (a : Action) : bool :=
  match a with Receive _ => true | _ => false end.
Definition isLog (a : Action) : bool :=
  match a with LogInfof _ _ | LogErrorf _ _ => true | _ => false end.
Definition isRun (e : Event) : bool :=
  match e with Run => true | Deliver _ => false end.
Definition isDeliver (e : Event) : bool := negb (isRun e).

Fixpoint count {A} (f : A -> bool) (l : list A) : nat :=
  match l with
  | [] => 0
  | a :: rest => (if f a then 1 else 0) + count f rest
  end.

Fixpoint dropLogs (t : list Action) : list Action :=
  match t with
  | [] => []
  | a :: rest => if isLog a then dropLogs rest else a :: dropLogs rest
  end.

(** The goroutine has received a signal. *)
Definition signalObserved (s : State) : bool :=
  match pc s with
  | AtMake | AtNotifyTerm | AtNotifyInt | AtReceive => false
  | _ => true
  end.

(** What the logger, when there is one, is asked to write. *)
Definition infoLog : list Action :=
  match logger with Some l => [LogInfof l drainMsg] | None => [] end.
Definition errorLog : list Action :=
  match logger, Shutdown server waitTime with
  | Some l, Some err => [LogErrorf l (errorMsg err)]
  | _, _ => []
  end.

(** The whole trace of a coordinator that received [sig] and ran to its
    end. *)
Definition shutdownSequence (sig : Signal) : list Action :=
  [Notify SIGTERM; Notify SIGINT; Receive sig] ++ infoLog
  ++ [CallShutdown waitTime] ++ errorLog ++ [CloseIdleConnsClosed; CancelFunc].

(** The trace, the subscriptions and the state of the returned channel
    when the goroutine stands at [p], having received [sig] if it is past
    the receive. *)
Definition traceAt (sig : Signal) (p : Pc) : list Action :=
  match p with
  | AtMake | AtNotifyTerm => []
  | AtNotifyInt => [Notify SIGTERM]
  | AtReceive => [Notify SIGTERM; Notify SIGINT]
  | AtInfof => [Notify SIGTERM; Notify SIGINT; Receive sig]
  | AtShutdown => [Notify SIGTERM; Notify SIGINT; Receive sig] ++ infoLog
  | AtErrorf _ =>
      [Notify SIGTERM; Notify SIGINT; Receive sig] ++ infoLog
      ++ [CallShutdown waitTime]
  | AtClose =>
      [Notify SIGTERM; Notify SIGINT; Receive sig] ++ infoLog
      ++ [CallShutdown waitTime] ++ errorLog
  | AtCancel =>
      [Notify SIGTERM; Notify SIGINT; Receive sig] ++ infoLog
      ++ [CallShutdown waitTime] ++ errorLog ++ [CloseIdleConnsClosed]
  | Exited => shutdownSequence sig
  end.

Definition subscribedAt (p : Pc) : list Signal :=
  match p with
  | AtMake | AtNotifyTerm => []
  | AtNotifyInt => [SIGTERM]
  | _ => [SIGTERM; SIGINT]
  end.

Definition closedAt (p : Pc) : bool :=
  match p with AtCancel | Exited => true | _ => false end.

(** Steps left to the goroutine once it has a signal. *)
Definition distance (p : Pc) : nat :=
  match p with
  | AtInfof => 5
  | AtShutdown => 4
  | AtErrorf _ => 3
  | AtClose => 2
  | AtCancel => 1
  | _ => 0
  end.

(** The states the coordinator can be in. *)
Definition shape (s : State) : Prop :=
  (exists sig, trace s = traceAt sig (pc s))
  /\ subscribed s = subscribedAt (pc s)
  /\ idleConnsClosed s = closedAt (pc s)
  /\ (length (gracefulStop s) <= 1)%nat
  /\ match pc s with
     | AtErrorf err => Shutdown server waitTime = Some err
     | _ => True
     end
  /\ match fault s with
     | None => True
     | Some (KilledBy _) => signalObserved s = false /\ pc s <> AtReceive
     | Some _ => False
     end.

(** Every close in the trace comes after a [Shutdown] with [waitTime]. *)
Fixpoint closeGuarded (seen : bool) (t : list Action) : bool :=
  match t with
  | [] => true
  | CloseIdleConnsClosed :: rest => seen && closeGuarded seen rest
  | CallShutdown w :: rest => closeGuarded (seen || (w =? waitTime)) rest
  | _ :: rest => closeGuarded seen rest
  end.

(** The property of the specification for one schedule: when two or
    more signals arrive, the goroutine, given time to run, has called
    [Shutdown] once and closed the channel once. *)
Definition actsOnce (schedule : list Event) : Prop :=
  (2 <= count isDeliver schedule)%nat ->
  exists n,
    let s := exec (schedule ++ repeat Run n) GracefulShutdown in
    count isShutdown (trace s) = 1%nat /\ count isClose (trace s) = 1%nat.

(** The schedule of the specification's test of a double signal: the
    goroutine subscribes, two signals arrive one right after the other,
    and the goroutine runs on. *)
Definition twoSignals : list Event :=
  [Run; Run; Run; Deliver SIGINT; Deliver SIGINT; Run; Run; Run; Run; Run; Run].

End Coordinator.

(** Two states that differ in the channel's buffer at most. *)
Definition sameRun (s s' : State) : Prop :=
  pc s = pc s' /\ subscribed s = subscribed s'
  /\ idleConnsClosed s = idleConnsClosed s'
  /\ trace s = trace s' /\ fault s = fault s'.

(** The coordinator without a logger against the coordinator with one. *)
Definition sameButLogs (s0 s1 : State) : Prop :=
  pc s0 = pc s1 /\ subscribed s0 = subscribed s1
  /\ gracefulStop s0 = gracefulStop s1
  /\ idleConnsClosed s0 = idleConnsClosed s1
  /\ fault s0 = fault s1
  /\ trace s0 = dropLogs (trace s1).

End Server.

(** * Properties *)

Module ChainFacts.
Import Middleware.

(** ** The monad *)

Lemma bind_ret_l {A B} (a : A) (k : A -> M B) st : bind (ret a) k st = k a st.
Proof. reflexivity. Qed.

Lemma bind_assoc {A B C} (c : M A) (k : A -> M B) (k' : B -> M C) st :
  bind (bind c k) k' st = bind c (fun a => bind (k a) k') st.
Proof. unfold bind. destruct (c st); reflexivity. Qed.

Lemma bind_ret_r (c : M unit) st : bind c (fun _ => ret tt) st = c st.
Proof. unfold bind, ret. destruct (c st) as [[] ?|]; reflexivity. Qed.

(** ** Composition *)

Lemma AddMiddlewares_snoc h ms m :
  AddMiddlewares h (ms ++ [m]) = m (AddMiddlewares h ms).
Proof. unfold AddMiddlewares. rewrite fold_left_app. reflexivity. Qed.

Lemma AddMiddlewares_nested h ms :
  AddMiddlewares h ms = fold_right (fun m acc => m acc) h (rev ms).
Proof.
  induction ms as [|m ms IH] using rev_ind; [reflexivity|].
  rewrite AddMiddlewares_snoc, rev_app_distr. simpl. now rewrite IH.
Qed.

Lemma printAll_output logger names st :
  printAll logger names st
  = Returned tt (with_output (output st ++ map (Println logger) names) st).
Proof.
  revert st. induction names as [|n names IH]; intros st.
  - simpl. unfold ret, with_output. rewrite app_nil_r. now destruct st.
  - simpl. unfold bind, emit, modify. rewrite IH. f_equal.
    unfold with_output. simpl. now rewrite <- app_assoc.
Qed.

Lemma createMiddleware_chain logger names h w r st :
  AddMiddlewares h (map (createMiddleware logger) names) w r st
  = (printAll logger (rev names) ;;; h w r ;;; printAll logger names) st.
Proof.
  revert st. induction names as [|n names IH] using rev_ind; intros st.
  - simpl. symmetry. apply bind_ret_r.
  - rewrite map_app. simpl map. rewrite AddMiddlewares_snoc, rev_app_distr.
    simpl. unfold createMiddleware at 1.
    cbv [bind emit modify]. rewrite IH. cbv [bind].
    rewrite !printAll_output. simpl.
    match goal with |- context [h w r ?s] => destruct (h w r s) as [[] st1|v st1] end;
      [|reflexivity].
    rewrite !printAll_output. f_equal. unfold with_output. simpl. f_equal.
    rewrite map_app. simpl. now rewrite <- !app_assoc.
Qed.


(** C1. [AddMiddlewares h [s_1; ...; s_n]] is [s_n (... (s_1 h))]: each
    stage wraps what the stages before it built.  Hence, for stages that
    print their name before and after delegating, one request prints the
    names in reverse registration order, runs the terminal handler once,
    and prints the names in registration order; for the stages one, two,
    three of the test the lines are three, two, one, the handler, one, two,
    three. *)
Theorem AddMiddlewares_order :
  (forall h ms, AddMiddlewares h ms = fold_right (fun m acc => m acc) h (rev ms))
  /\ (forall h ms m, AddMiddlewares h (ms ++ [m]) = m (AddMiddlewares h ms))
  /\ (forall logger names h w r st,
        AddMiddlewares h (map (createMiddleware logger) names) w r st
        = (printAll logger (rev names) ;;; h w r ;;; printAll logger names) st)
  /\ (forall logger names w r st,
        AddMiddlewares (HandlerFunc [CallPrintln logger "the handler"])
                       (map (createMiddleware logger) names) w r st
        = Returned tt
            (with_output
               (output st ++ map (Println logger)
                                 (rev names ++ ["the handler"%string] ++ names)) st))
  /\ (forall logger w r,
        output (worldOf
          (AddMiddlewares (HandlerFunc [CallPrintln logger "the handler"])
             [createMiddleware logger "one"; createMiddleware logger "two";
              createMiddleware logger "three"] w r emptyWorld))
        = map (Println logger)
              ["three"; "two"; "one"; "the handler"; "one"; "two"; "three"]%string).
Proof.
  split; [exact AddMiddlewares_nested|].
  split; [exact AddMiddlewares_snoc|].
  split; [exact createMiddleware_chain|].
  split; [|reflexivity].
  intros logger names w r st. rewrite createMiddleware_chain.
  unfold bind. rewrite printAll_output. simpl.
  unfold bind, emit, modify, ret. rewrite printAll_output. f_equal.
  unfold with_output. simpl. f_equal.
  rewrite !map_app. simpl. now rewrite <- !app_assoc.
Qed.

End ChainFacts.

Module WriterFacts.
Import Middleware.

(** ** Response writers *)

Lemma with_writers_same st : with_writers (writers st) st = st.
Proof. now destruct st. Qed.

Lemma NewResponseWriter_wrapper p e st :
  NewResponseWriter (InfoPtr p e) st = Returned (InfoPtr p e) st.
Proof. reflexivity. Qed.

Lemma NewResponseWriter_returns w st :
  exists rw st', NewResponseWriter w st = Returned rw st'
    /\ NewResponseWriter rw st' = Returned rw st'.
Proof. destruct w; simpl; eauto. Qed.

Lemma statusUpdate_refl code ws : statusUpdate code ws ws.
Proof.
  split; [reflexivity|]. intros p [c e] H. exists c. simpl. auto.
Qed.

Lemma statusUpdate_trans code ws1 ws2 ws3 :
  statusUpdate code ws1 ws2 -> statusUpdate code ws2 ws3 -> statusUpdate code ws1 ws3.
Proof.
  intros [L1 H1] [L2 H2]. split; [congruence|].
  intros p i Hp. destruct (H1 p i Hp) as (c & Hc & Hor).
  destruct (H2 p _ Hc) as (c' & Hc' & Hor'). simpl in *.
  exists c'. split; [assumption|]. intuition congruence.
Qed.

Lemma statusUpdate_insert code ws p i :
  ws !! p = Some i ->
  statusUpdate code ws (<[p := mkInfo code (responseError i)]> ws).
Proof.
  intros Hp. split; [apply length_insert|].
  intros q j Hq. destruct (Nat.eq_dec p q) as [->|Hne].
  - rewrite list_lookup_insert_eq by (eapply lookup_lt_Some; eauto).
    assert (j = i) as -> by congruence. eauto.
  - rewrite list_lookup_insert_ne by assumption.
    exists (statusCode j). destruct j; simpl in *. auto.
Qed.

Lemma WriteHeader_effect w code st :
  exists ws, statusUpdate code (writers st) ws
    /\ WriteHeader w code st
       = Returned tt (with_wire (wire st ++ [(connOf w, WroteHeader code)])
                               (with_writers ws st)).
Proof.
  revert st. induction w as [c|p e IH|e IH]; intros st; simpl.
  - exists (writers st). split; [apply statusUpdate_refl|].
    now rewrite with_writers_same.
  - unfold bind, setStatusCode, modify.
    destruct (writers st !! p) as [i|] eqn:Hp.
    + destruct (IH (with_writers (<[p:=mkInfo code (responseError i)]> (writers st)) st))
        as (ws & Hws & ->). exists ws. split; [|reflexivity].
      eapply statusUpdate_trans; [apply statusUpdate_insert; eassumption|exact Hws].
    + destruct (IH st) as (ws & Hws & ->). eauto.
  - apply IH.
Qed.

(** The world after a statement of a handler body that does not panic:
    what the loggers wrote grows by the line it prints. *)
Lemma execStmt_returns w s st :
  isPanic s = false ->
  exists st', execStmt w s st = Returned tt st'
    /\ output st' = output st ++ printed [s].
Proof.
  destruct s; simpl; intros Hs; try discriminate.
  - destruct (WriteHeader_effect w code st) as (ws & _ & ->).
    eexists; split; [reflexivity|]. simpl. now rewrite app_nil_r.
  - eexists; split; [reflexivity|]. simpl. now rewrite app_nil_r.
  - assert (forall p st0, exists st1,
              WriteError p err st0 = Returned tt st1 /\ output st1 = output st0)
      as HW.
    { intros p st0. unfold WriteError, modify. eexists; split; [reflexivity|].
      now destruct (writers st0 !! p). }
    unfold bind. destruct w; simpl;
      match goal with |- context [WriteError ?p err ?s] =>
        destruct (HW p s) as (st1 & -> & O1) end;
      eexists; (split; [reflexivity|]); rewrite O1; simpl; now rewrite app_nil_r.
  - eexists; split; reflexivity.
  - eexists; split; [reflexivity|]. simpl. now rewrite app_nil_r.
Qed.

Lemma printed_cons s body :
  isPanic s = false -> printed (s :: body) = printed [s] ++ printed body.
Proof. destruct s; simpl; intros; try discriminate; reflexivity. Qed.

Lemma HandlerFunc_returns body w r st :
  neverPanics body = true ->
  exists st', HandlerFunc body w r st = Returned tt st'
    /\ output st' = output st ++ printed body.
Proof.
  revert st. induction body as [|s body IH]; intros st Hb.
  - exists st. split; [reflexivity|]. simpl. now rewrite app_nil_r.
  - simpl in Hb. apply andb_true_iff in Hb as [Hs Hb].
    apply negb_true_iff in Hs.
    destruct (execStmt_returns w s st Hs) as (st1 & E1 & O1).
    destruct (IH st1 Hb) as (st2 & E2 & O2).
    exists st2. split.
    + simpl. unfold bind. now rewrite E1.
    + rewrite (printed_cons s body) by assumption.
      rewrite O2, O1. now rewrite <- app_assoc.
Qed.

(** What the wrapper holds when a body has run on it. *)
Lemma execStmt_recorded s p e st i :
  writers st !! p = Some i ->
  match execStmt (InfoPtr p e) s st with
  | Returned _ st' => isPanic s = false /\ writers st' !! p = Some (recorded [s] i)
  | Panicked _ st' => isPanic s = true /\ st' = st
  end.
Proof.
  intros Hp. destruct s; simpl.
  - unfold bind, setStatusCode, modify. rewrite Hp.
    destruct (WriteHeader_effect e code
               (with_writers (<[p:=mkInfo code (responseError i)]> (writers st)) st))
      as (ws & [_ Hws] & ->).
    split; [reflexivity|]. simpl in *.
    destruct (Hws p (mkInfo code (responseError i))) as (c & Hc & Hor).
    { apply list_lookup_insert_eq. eapply lookup_lt_Some; eauto. }
    simpl in *. rewrite Hc. destruct Hor; subst; reflexivity.
  - auto.
  - unfold bind, ret, WriteError, modify. rewrite Hp. simpl.
    split; [reflexivity|]. apply list_lookup_insert_eq. eapply lookup_lt_Some; eauto.
  - auto.
  - auto.
  - auto.
Qed.

Lemma recorded_cons s body i :
  isPanic s = false -> recorded (s :: body) i = recorded body (recorded [s] i).
Proof. destruct s; simpl; intros; try discriminate; reflexivity. Qed.

Lemma HandlerFunc_recorded body p e r st i :
  writers st !! p = Some i ->
  writers (worldOf (HandlerFunc body (InfoPtr p e) r st)) !! p
  = Some (recorded body i).
Proof.
  revert st i. induction body as [|s body IH]; intros st i Hp; [exact Hp|].
  simpl HandlerFunc. unfold bind.
  pose proof (execStmt_recorded s p e st i Hp) as Hs.
  destruct (execStmt (InfoPtr p e) s st) as [[] st1|v st1].
  - destruct Hs as [Hn H1]. rewrite recorded_cons by assumption. now apply IH.
  - destruct Hs as [Hn ->]. destruct s; try discriminate. exact Hp.
Qed.

Lemma recorded_neverWritesHeader body i :
  neverWritesHeader body = true -> statusCode (recorded body i) = statusCode i.
Proof.
  revert i. induction body as [|s body IH]; intros i Hb; [reflexivity|].
  simpl in Hb. apply andb_true_iff in Hb as [Hs Hb].
  destruct s; simpl in *; try discriminate; try (now apply IH); try reflexivity.
  now rewrite IH.
Qed.

Lemma recorded_last_WriteHeader pre code post i :
  neverPanics pre = true -> neverWritesHeader post = true ->
  statusCode (recorded (pre ++ CallWriteHeader code :: post) i) = code.
Proof.
  revert i. induction pre as [|s pre IH]; intros i Hpre Hpost.
  - simpl. now rewrite recorded_neverWritesHeader.
  - simpl in Hpre. apply andb_true_iff in Hpre as [Hs Hpre].
    apply negb_true_iff in Hs. simpl app. rewrite recorded_cons by assumption.
    now apply IH.
Qed.

(** A body that runs on a wrapper makes no further wrapper. *)
Lemma execStmt_length s p e st :
  length (writers (worldOf (execStmt (InfoPtr p e) s st))) = length (writers st).
Proof.
  destruct s; simpl; try reflexivity.
  - destruct (WriteHeader_effect (InfoPtr p e) code st) as (ws & [L _] & E).
    simpl in E. rewrite E. exact L.
  - unfold bind, ret, WriteError, modify. simpl.
    destruct (writers st !! p); simpl; [apply length_insert|reflexivity].
Qed.

Lemma HandlerFunc_length body p e r st :
  length (writers (worldOf (HandlerFunc body (InfoPtr p e) r st)))
  = length (writers st).
Proof.
  revert st. induction body as [|s body IH]; intros st; [reflexivity|].
  simpl HandlerFunc. unfold bind.
  pose proof (execStmt_length s p e st) as Hs.
  destruct (execStmt (InfoPtr p e) s st) as [[] st1|v st1]; simpl in Hs.
  - now rewrite IH.
  - exact Hs.
Qed.

(** ** Logger *)

Lemma Logger_returns name h w r st rw st1 st2 i :
  NewResponseWriter w st = Returned rw st1 ->
  h rw r st1 = Returned tt st2 ->
  readInfo rw st2 = Returned i st2 ->
  Logger (Some name) h w r st
  = Returned tt
      (with_output
         (output st2 ++ [Logrus name (requestEntry r i (clock st2 - clock st1))]) st2).
Proof.
  intros Hnew Hh Hread. unfold Logger, bind. rewrite Hnew. simpl.
  rewrite Hh, Hread. simpl. unfold requestEntry.
  destruct (responseError i); reflexivity.
Qed.

Lemma fresh_wrapper_lookup (ws : list ResponseWriterWithInfo) i :
  (ws ++ [i]) !! length ws = Some i.
Proof. now apply list_lookup_middle. Qed.

Lemma Logger_HandlerFunc name body conn r st :
  neverPanics body = true ->
  exists st2,
    HandlerFunc body (InfoPtr (length (writers st)) (ServerWriter conn)) r
      (with_writers (writers st ++ [mkInfo StatusOK None]) st) = Returned tt st2
    /\ output st2 = output st ++ printed body
    /\ writers st2 !! length (writers st)
       = Some (recorded body (mkInfo StatusOK None))
    /\ Logger (Some name) (HandlerFunc body) (ServerWriter conn) r st
       = Returned tt
           (with_output
              (output st2 ++
                 [Logrus name (requestEntry r (recorded body (mkInfo StatusOK None))
                                 (clock st2 - clock st))]) st2).
Proof.
  intros Hb.
  set (p := length (writers st)).
  set (st1 := with_writers (writers st ++ [mkInfo StatusOK None]) st).
  destruct (HandlerFunc_returns body (InfoPtr p (ServerWriter conn)) r st1 Hb)
    as (st2 & E2 & O2).
  pose proof (HandlerFunc_recorded body p (ServerWriter conn) r st1
                (mkInfo StatusOK None) (fresh_wrapper_lookup _ _)) as Hrec.
  rewrite E2 in Hrec. simpl in Hrec.
  exists st2. repeat split; try assumption.
  change (clock st) with (clock st1).
  apply Logger_returns with (rw := InfoPtr p (ServerWriter conn)).
  - reflexivity.
  - exact E2.
  - unfold readInfo. now rewrite Hrec.
Qed.

(** C10. A handler that returns without calling [WriteHeader] leaves 200
    in the wrapper [Logger] made for the request, and 200 is the status of
    the entry [Logger] writes; when the handler calls [WriteHeader code]
    (and not again after it) the wrapper holds [code], and [code] is the
    status of the entry. *)
Theorem Logger_reports_recorded_status name body conn r st :
  neverPanics body = true ->
  exists e st',
    Logger (Some name) (HandlerFunc body) (ServerWriter conn) r st = Returned tt st'
    /\ output st' = output st ++ printed body ++ [Logrus name e]
    /\ writers st' !! length (writers st) = Some (recorded body (mkInfo StatusOK None))
    /\ lookupField "status" (fields e)
       = Some (VInt (statusCode (recorded body (mkInfo StatusOK None))))
    /\ (neverWritesHeader body = true ->
        statusCode (recorded body (mkInfo StatusOK None)) = StatusOK)
    /\ (forall pre code post,
          body = pre ++ CallWriteHeader code :: post ->
          neverWritesHeader post = true ->
          statusCode (recorded body (mkInfo StatusOK None)) = code).
Proof.
  intros Hb.
  destruct (Logger_HandlerFunc name body conn r st Hb) as (st2 & _ & O2 & W2 & E).
  eexists _, _. split; [exact E|].
  split; [simpl; rewrite O2; now rewrite <- app_assoc|].
  split; [exact W2|].
  split; [reflexivity|].
  split.
  - intros Hn. now rewrite recorded_neverWritesHeader.
  - intros pre code post -> Hpost. apply recorded_last_WriteHeader; [|assumption].
    unfold neverPanics in *. rewrite forallb_app in Hb.
    now apply andb_true_iff in Hb as [Hpre _].
Qed.

Lemma Logger_reports_recorded_status_witness :
  neverPanics [CallWrite "not found"; CallWriteHeader 404] = true
  /\ exists e st',
    Logger (Some "log"%string)
      (HandlerFunc [CallWrite "not found"; CallWriteHeader 404])
      (ServerWriter 0) (mkRequest "GET" "[::1]:4080" "/" "HTTP/1.1" 0) emptyWorld
    = Returned tt st'
    /\ output st' = output emptyWorld
                    ++ printed [CallWrite "not found"; CallWriteHeader 404]
                    ++ [Logrus "log" e]
    /\ writers st' !! length (writers emptyWorld)
       = Some (recorded [CallWrite "not found"; CallWriteHeader 404]
                 (mkInfo StatusOK None))
    /\ lookupField "status" (fields e)
       = Some (VInt (statusCode
                       (recorded [CallWrite "not found"; CallWriteHeader 404]
                          (mkInfo StatusOK None))))
    /\ (neverWritesHeader [CallWrite "not found"; CallWriteHeader 404] = true ->
        statusCode (recorded [CallWrite "not found"; CallWriteHeader 404]
                      (mkInfo StatusOK None)) = StatusOK)
    /\ (forall pre code post,
          [CallWrite "not found"; CallWriteHeader 404]
          = pre ++ CallWriteHeader code :: post ->
          neverWritesHeader post = true ->
          statusCode (recorded [CallWrite "not found"; CallWriteHeader 404]
                        (mkInfo StatusOK None)) = code).
Proof.
  split; [reflexivity|].
  apply (Logger_reports_recorded_status "log"
           [CallWrite "not found"; CallWriteHeader 404] 0%nat
           (mkRequest "GET" "[::1]:4080" "/" "HTTP/1.1" 0) emptyWorld).
  reflexivity.
Defined.

(** C9. [NewResponseWriter] returns a [*ResponseWriterWithInfo] as it is:
    no wrapper is made and the world, with the status and the error the
    wrapper holds, is unchanged; applied to its own result it changes
    nothing.  So when one [Logger] stage runs inside another, one wrapper
    serves the request and both entries carry its status and error: a
    stage that is handed the wrapper itself shares it. *)
Theorem NewResponseWriter_idempotent :
  (forall p e st, NewResponseWriter (InfoPtr p e) st = Returned (InfoPtr p e) st)
  /\ (forall w st, exists rw st',
        NewResponseWriter w st = Returned rw st'
        /\ NewResponseWriter rw st' = Returned rw st')
  /\ (forall outer inner body conn r st,
        neverPanics body = true ->
        exists st' elapsed1 elapsed2,
          Logger (Some outer) (Logger (Some inner) (HandlerFunc body))
                 (ServerWriter conn) r st = Returned tt st'
          /\ length (writers st') = S (length (writers st))
          /\ output st'
             = output st ++ printed body
               ++ [Logrus inner
                     (requestEntry r (recorded body (mkInfo StatusOK None)) elapsed2);
                   Logrus outer
                     (requestEntry r (recorded body (mkInfo StatusOK None)) elapsed1)])
  /\ (forall outer inner,
        oneRecordPerRequest (Logger (Some outer)) (Logger (Some inner))).
Proof.
  split; [exact NewResponseWriter_wrapper|].
  split; [exact NewResponseWriter_returns|].
  assert (Hshare : forall outer inner body conn r st,
    neverPanics body = true ->
    exists st' elapsed1 elapsed2,
      Logger (Some outer) (Logger (Some inner) (HandlerFunc body))
             (ServerWriter conn) r st = Returned tt st'
      /\ length (writers st') = S (length (writers st))
      /\ output st'
         = output st ++ printed body
           ++ [Logrus inner
                 (requestEntry r (recorded body (mkInfo StatusOK None)) elapsed2);
               Logrus outer
                 (requestEntry r (recorded body (mkInfo StatusOK None)) elapsed1)]);
    [|split; [exact Hshare|];
      intros outer inner body conn r st Hb;
      destruct (Hshare outer inner body conn r st Hb) as (st' & _ & _ & E & L & _);
      rewrite E; exact L].
  intros outer inner body conn r st Hb.
  destruct (Logger_HandlerFunc inner body conn r st Hb) as (st2 & E2 & O2 & W2 & _).
  set (p := length (writers st)) in *.
  set (st1 := with_writers (writers st ++ [mkInfo StatusOK None]) st) in *.
  set (i := recorded body (mkInfo StatusOK None)) in *.
  assert (Hread : forall s, writers s = writers st2 ->
            readInfo (InfoPtr p (ServerWriter conn)) s = Returned i s).
  { intros s Hs. unfold readInfo. now rewrite Hs, W2. }
  pose proof (Logger_returns inner (HandlerFunc body) (InfoPtr p (ServerWriter conn))
                r st1 _ st1 st2 i eq_refl E2 (Hread _ eq_refl)) as Hin.
  pose proof (Logger_returns outer _ (ServerWriter conn) r st _ st1 _ i
                eq_refl Hin (Hread (with_output _ st2) eq_refl)) as Hout.
  eexists _, _, _. split; [exact Hout|]. split.
  - simpl.
    assert (L : length (writers st2) = length (writers st1)).
    { pose proof (HandlerFunc_length body p (ServerWriter conn) r st1) as HL.
      rewrite E2 in HL. exact HL. }
    rewrite L. unfold st1. simpl. rewrite length_app. simpl. lia.
  - simpl. rewrite O2. rewrite <- !app_assoc. reflexivity.
Qed.

Lemma NewResponseWriter_idempotent_witness :
  neverPanics [CallWriteHeader 404; CallWriteError "not found"%string] = true
  /\ exists st' elapsed1 elapsed2,
       Logger (Some "access"%string)
         (Logger (Some "audit"%string)
            (HandlerFunc [CallWriteHeader 404; CallWriteError "not found"%string]))
         (ServerWriter 0) anyRequest emptyWorld = Returned tt st'
       /\ length (writers st') = S (length (writers emptyWorld))
       /\ output st'
          = output emptyWorld
            ++ printed [CallWriteHeader 404; CallWriteError "not found"%string]
            ++ [Logrus "audit"
                  (requestEntry anyRequest
                     (recorded [CallWriteHeader 404; CallWriteError "not found"%string]
                        (mkInfo StatusOK None)) elapsed2);
                Logrus "access"
                  (requestEntry anyRequest
                     (recorded [CallWriteHeader 404; CallWriteError "not found"%string]
                        (mkInfo StatusOK None)) elapsed1)].
Proof.
  split; [reflexivity|].
  destruct NewResponseWriter_idempotent as (_ & _ & H & _).
  apply H. reflexivity.
Defined.

(** C9 fails as stated for a [Logger] that runs inside [Prometheus]: it
    is handed promhttp's delegator, not the wrapper [Prometheus] made, and
    makes a wrapper of its own.  The request leaves two records; the status
    the handler writes reaches both, the error it reports only the inner
    one. *)
Lemma nested_stages_share_one_record_fails :
  ~ oneRecordPerRequest (prometheusStage registered) (Logger (Some "log"%string))
  /\ writers (worldOf
        (prometheusStage registered
           (Logger (Some "log"%string)
              (HandlerFunc [CallWriteHeader 404; CallWriteError "db down"%string]))
           (ServerWriter 0) anyRequest emptyWorld))
     = [mkInfo 404 None; mkInfo 404 (Some "db down"%string)].
Proof.
  split; [|reflexivity].
  intros H.
  specialize (H [CallWriteHeader 404; CallWriteError "db down"%string]
                0%nat anyRequest emptyWorld eq_refl).
  vm_compute in H. discriminate H.
Qed.

End WriterFacts.

Module RecoveryFacts.
Import Middleware.

(** ** PanicRecovery *)

(** C6. When the next handler panics, the handler [PanicRecovery] built
    returns normally to its caller: the panic value is logged as an error
    and nothing else changes, so the response stands as the handler left
    it. *)
Theorem PanicRecovery_recovers name h w r st v st' :
  h w r st = Panicked v st' ->
  PanicRecovery (Some name) h w r st
  = Returned tt
      (with_output
         (output st' ++
            [Logrus name (mkEntry ErrorLevel (String.append "panic recovered: " v)
                            [] None)]) st')
  /\ wire (worldOf (PanicRecovery (Some name) h w r st)) = wire st'
  /\ writers (worldOf (PanicRecovery (Some name) h w r st)) = writers st'.
Proof.
  intros Hh. unfold PanicRecovery, defer_recover. rewrite Hh. simpl. auto.
Qed.

Lemma PanicRecovery_recovers_witness :
  HandlerFunc [CallWrite "partial"; CallPanic "boom"%string] (ServerWriter 0)
    (mkRequest "GET" "[::1]:4080" "/" "HTTP/1.1" 0) emptyWorld
  = Panicked "boom"%string (with_wire [(0%nat, Wrote "partial")] emptyWorld)
  /\ PanicRecovery (Some "log"%string)
       (HandlerFunc [CallWrite "partial"; CallPanic "boom"%string]) (ServerWriter 0)
       (mkRequest "GET" "[::1]:4080" "/" "HTTP/1.1" 0) emptyWorld
     = Returned tt
         (with_output
            [Logrus "log" (mkEntry ErrorLevel "panic recovered: boom" [] None)]
            (with_wire [(0%nat, Wrote "partial")] emptyWorld)).
Proof.
  split; [reflexivity|].
  apply (PanicRecovery_recovers "log"
           (HandlerFunc [CallWrite "partial"; CallPanic "boom"%string]) (ServerWriter 0)
           (mkRequest "GET" "[::1]:4080" "/" "HTTP/1.1" 0) emptyWorld
           "boom"%string (with_wire [(0%nat, Wrote "partial")] emptyWorld)).
  reflexivity.
Defined.

(** The stage needs its logger: over a nil logger the deferred function
    panics in its turn, and that panic goes on to the caller. *)
Remark PanicRecovery_nil_logger h w r st v st' :
  h w r st = Panicked v st' ->
  PanicRecovery None h w r st = Panicked nilDereference st'.
Proof. intros Hh. unfold PanicRecovery, defer_recover. now rewrite Hh. Qed.

End RecoveryFacts.

Module LimiterFacts.
Import Middleware WriterFacts.

(** ** The wire *)

Lemma responseStatus_unused conn calls rest :
  unused conn calls -> responseStatus conn (calls ++ rest) = responseStatus conn rest.
Proof.
  induction calls as [|[c call] calls IH]; intros Hu; [reflexivity|].
  assert (c <> conn) as Hne by (intros ->; apply (Hu call); now left).
  assert (unused conn calls) as Hu' by (intros x Hx; apply (Hu x); now right).
  apply Nat.eqb_neq in Hne. simpl. destruct call; rewrite ?Hne; auto.
Qed.

Lemma wireFresh_unused st : wireFresh st -> unused (conns st) (wire st).
Proof. intros Hf call Hin. apply Hf in Hin. lia. Qed.

(** ** The token bucket *)







Lemma Allow_decision p lim st :
  limiters st !! p = Some lim ->
  Allow p st
  = Returned (fst (reserveN lim (clock st)))
      (with_limiters (<[p := snd (reserveN lim (clock st))]> (limiters st)) st).
Proof.
  intros Hp. unfold Allow, withLimiter. rewrite Hp.
  now destruct (reserveN lim (clock st)).
Qed.

Lemma Error_effect w st :
  exists ws, statusUpdate StatusTooManyRequests (writers st) ws
    /\ Error w (StatusText StatusTooManyRequests) StatusTooManyRequests st
       = Returned tt
           (with_wire (wire st ++ map (pair (connOf w)) tooManyRequests)
                      (with_writers ws st)).
Proof.
  unfold Error, bind, SetHeader, Write, send, modify.
  match goal with |- context [WriteHeader w ?c ?s] =>
    destruct (WriteHeader_effect w c s) as (ws & Hws & ->) end.
  exists ws. split; [exact Hws|]. f_equal.
  unfold with_wire, with_writers. simpl. f_equal.
  now rewrite <- !app_assoc.
Qed.

Lemma reserveN_decision lim now :
  fst (reserveN lim now) = false
  <-> exists i, limit lim = EveryNs i /\ (burst lim < 1 \/ avail lim now < i).
Proof.
  unfold reserveN, avail. destruct (limit lim) as [|i] eqn:Hl.
  - simpl. split; [discriminate|]. intros (i & Hi & _). discriminate.
  - destruct (advance lim now) as [l t]. simpl. split.
    + intros H. exists i. split; [reflexivity|].
      destruct (1 <=? burst lim) eqn:E1; destruct (0 <=? t - i) eqn:E2;
        simpl in H; try discriminate; lia.
    + intros (j & Hj & Hor). inversion Hj; subst j.
      destruct (1 <=? burst lim) eqn:E1; destruct (0 <=? t - i) eqn:E2;
        simpl; try reflexivity; lia.
Qed.

Lemma reserveN_rejected_state lim now :
  fst (reserveN lim now) = false -> last lim <= now -> snd (reserveN lim now) = lim.
Proof.
  unfold reserveN. destruct (limit lim) as [|i] eqn:Hl; [discriminate|].
  unfold advance.
  destruct ((1 <=? burst lim) && _); [discriminate|]. simpl. intros _ Hm.
  assert ((now <? last lim) = false) as -> by lia.
  destruct lim; simpl in *. now subst.
Qed.

(** C5. A request for which the limiter has no token is answered by
    [http.Error] with 429 and the text of that status, and the stage returns
    without calling the next handler: whatever the next handler is, the
    world afterwards is the world before with the four calls of
    [http.Error] on the connection (and, under a wrapper, the status the
    wrapper records); nothing is logged or counted and, the clock not
    running backwards, the limiter is as it was.  A request for which
    there is a token goes to the next handler, one token fewer in the
    bucket. *)
Theorem rateLimiterStage_decision limiter lim h w r st :
  limiters st !! limiter = Some lim ->
  let st1 := with_limiters
               (<[limiter := snd (reserveN lim (clock st))]> (limiters st)) st in
  (fst (reserveN lim (clock st)) = false
   <-> exists i, limit lim = EveryNs i /\ (burst lim < 1 \/ avail lim (clock st) < i))
  /\ (fst (reserveN lim (clock st)) = false ->
      (exists ws,
          statusUpdate StatusTooManyRequests (writers st) ws
          /\ rateLimiterStage limiter h w r st
             = Returned tt
                 (with_wire (wire st ++ map (pair (connOf w)) tooManyRequests)
                            (with_writers ws st1)))
      /\ (unused (connOf w) (wire st) ->
          responseStatus (connOf w)
            (wire (worldOf (rateLimiterStage limiter h w r st)))
          = StatusTooManyRequests)
      /\ (last lim <= clock st -> st1 = st)
      /\ (forall h', rateLimiterStage limiter h' w r st
                     = rateLimiterStage limiter h w r st))
  /\ (fst (reserveN lim (clock st)) = true ->
      rateLimiterStage limiter h w r st = h w r st1).
Proof.
  intros Hp st1.
  assert (Hstage : forall g, rateLimiterStage limiter g w r st
            = if negb (fst (reserveN lim (clock st)))
              then Error w (StatusText StatusTooManyRequests) StatusTooManyRequests st1
              else g w r st1).
  { intros g. unfold rateLimiterStage, bind. rewrite (Allow_decision _ _ _ Hp).
    now destruct (fst (reserveN lim (clock st))). }
  split; [apply reserveN_decision|]. split.
  - intros Hno. destruct (Error_effect w st1) as (ws & Hws & E).
    rewrite !Hstage, Hno. simpl negb. cbv iota. repeat split.
    + exists ws. split; [exact Hws|]. exact E.
    + intros Hu. rewrite E. simpl. rewrite responseStatus_unused by assumption.
      simpl. now rewrite Nat.eqb_refl.
    + intros Hm. unfold st1. rewrite reserveN_rejected_state by assumption.
      rewrite list_insert_id by assumption. now destruct st.
    + intros h'. now rewrite Hstage, Hno.
  - intros Hyes. now rewrite Hstage, Hyes.
Qed.

(** ** Requests through the limiter, around the empty handler *)

Lemma serve_allowed p lim r st :
  limiters st !! p = Some lim ->
  fst (reserveN lim (clock st)) = true ->
  wireFresh st ->
  serve (rateLimiterStage p (HandlerFunc [])) r st
  = Returned (Some StatusOK)
      (with_limiters (<[p := snd (reserveN lim (clock st))]> (limiters st))
         (with_conns (S (conns st)) st)).
Proof.
  intros Hp Hok Hf. unfold serve, rateLimiterStage, bind.
  rewrite (Allow_decision p lim (with_conns (S (conns st)) st) Hp).
  change (clock (with_conns (S (conns st)) st)) with (clock st).
  change (limiters (with_conns (S (conns st)) st)) with (limiters st).
  rewrite Hok. simpl.
  rewrite <- (app_nil_r (wire st)).
  rewrite responseStatus_unused by now apply wireFresh_unused.
  reflexivity.
Qed.

Lemma serve_rejected p lim r st :
  limiters st !! p = Some lim ->
  fst (reserveN lim (clock st)) = false ->
  wireFresh st ->
  serve (rateLimiterStage p (HandlerFunc [])) r st
  = Returned (Some StatusTooManyRequests)
      (with_wire (wire st ++ map (pair (conns st)) tooManyRequests)
         (with_limiters (<[p := snd (reserveN lim (clock st))]> (limiters st))
            (with_conns (S (conns st)) st))).
Proof.
  intros Hp Hno Hf. unfold serve, rateLimiterStage, bind.
  rewrite (Allow_decision p lim (with_conns (S (conns st)) st) Hp).
  change (clock (with_conns (S (conns st)) st)) with (clock st).
  change (limiters (with_conns (S (conns st)) st)) with (limiters st).
  rewrite Hno. simpl.
  rewrite <- !app_assoc. simpl.
  rewrite responseStatus_unused by now apply wireFresh_unused.
  simpl. rewrite Nat.eqb_refl. reflexivity.
Qed.

Lemma wireFresh_next st l ls :
  wireFresh st ->
  wireFresh (with_wire (wire st ++ map (pair (conns st)) l)
               (with_limiters ls (with_conns (S (conns st)) st))).
Proof.
  intros Hf c call. simpl. rewrite in_app_iff, in_map_iff.
  intros [Hin|(x & Hx & _)].
  - apply Hf in Hin. lia.
  - inversion Hx. lia.
Qed.

Lemma wireFresh_next' st ls :
  wireFresh st -> wireFresh (with_limiters ls (with_conns (S (conns st)) st)).
Proof. intros Hf c call Hin. apply Hf in Hin. simpl. lia. Qed.

Lemma fresh_lookup (ls : list Limiter) lim : (ls ++ [lim]) !! length ls = Some lim.
Proof. now apply list_lookup_middle. Qed.

Lemma fresh_insert (ls : list Limiter) lim lim' :
  <[length ls := lim']> (ls ++ [lim]) = ls ++ [lim'].
Proof. induction ls as [|x ls IH]; simpl; [reflexivity|]. now f_equal. Qed.

Section Burst.

Variables (p : nat) (i : Z) (r : Request).
Hypothesis Hi : 0 < i.


End Burst.

Lemma wireFresh_empty : wireFresh emptyWorld.
Proof. intros c call []. Qed.



(** What four requests get in the first of these cases. *)
Example RateLimiter_limit_below_burst :
  exists st,
    (mw <- RateLimiter 1000000000 1 3 ;;
     serveN 4 (AddMiddlewares (HandlerFunc []) [mw]) anyRequest) emptyWorld
    = Returned [Some 200; Some 429; Some 429; Some 429] st.
Proof. eexists. vm_compute. reflexivity. Qed.

Lemma rateLimiterStage_decision_witness :
  limiters (with_limiters [mkLimiter (EveryNs 10000000) 2 0 0] emptyWorld) !! 0%nat
  = Some (mkLimiter (EveryNs 10000000) 2 0 0)
  /\ fst (reserveN (mkLimiter (EveryNs 10000000) 2 0 0) 0) = false
  /\ responseStatus 0
       (wire (worldOf
          (rateLimiterStage 0 (HandlerFunc [CallWrite "hello"]) (ServerWriter 0)
             anyRequest (with_limiters [mkLimiter (EveryNs 10000000) 2 0 0] emptyWorld))))
     = StatusTooManyRequests.
Proof.
  split; [reflexivity|]. split; [reflexivity|].
  pose proof (rateLimiterStage_decision 0 (mkLimiter (EveryNs 10000000) 2 0 0)
                (HandlerFunc [CallWrite "hello"]) (ServerWriter 0) anyRequest
                (with_limiters [mkLimiter (EveryNs 10000000) 2 0 0] emptyWorld)
                eq_refl) as H.
  cbv zeta in H. destruct H as (_ & Hno & _).
  destruct (Hno eq_refl) as (_ & Hstatus & _).
  apply Hstatus. intros call [].
Defined.


End LimiterFacts.

Module PrometheusFacts.
Import Middleware.

(** ** Prometheus *)

Lemma Prometheus_first :
  Prometheus emptyWorld
  = Returned (prometheusStage registered)
      (with_registry collectorNames (with_once true emptyWorld)).
Proof. reflexivity. Qed.

Lemma Prometheus_again st :
  metricsRegisterOnce st = true ->
  Prometheus st = Returned (prometheusStage nilCollectors) st.
Proof. intros H. unfold Prometheus, bind, Do. now rewrite H. Qed.

Lemma constructN_again n st :
  metricsRegisterOnce st = true ->
  constructN n st = Returned (repeat (prometheusStage nilCollectors) n) st.
Proof.
  intros H. induction n as [|n IH]; [reflexivity|].
  simpl. unfold bind. now rewrite Prometheus_again, IH.
Qed.

(** C8, on the code.  In a fresh process any number of calls of
    [Prometheus] registers the four collectors once and none of the calls
    panics; the stage of the first call serves requests.  But the
    collectors are local variables that only the first call assigns: every
    later call returns a stage over nil collectors, which panics on every
    request before the next handler runs. *)
Theorem Prometheus_later_stages_panic n :
  constructN (S n) emptyWorld
  = Returned (prometheusStage registered :: repeat (prometheusStage nilCollectors) n)
      (with_registry collectorNames (with_once true emptyWorld))
  /\ List.NoDup collectorNames
  /\ (exists st, serve (prometheusStage registered (HandlerFunc [])) anyRequest
                   (with_registry collectorNames (with_once true emptyWorld))
                 = Returned (Some StatusOK) st)
  /\ (forall h w r st,
        prometheusStage nilCollectors h w r st = Panicked nilDereference st)
  /\ (forall h r st,
        serve (prometheusStage nilCollectors h) r st
        = Returned None (with_conns (S (conns st)) st)).
Proof.
  split.
  { change (constructN (S n)) with
      (bind Prometheus (fun m => bind (constructN n) (fun rest => ret (m :: rest)))).
    unfold bind at 1. rewrite Prometheus_first.
    unfold bind. now rewrite constructN_again. }
  split.
  { unfold collectorNames.
    repeat (apply List.NoDup_cons; [simpl; intuition discriminate|]).
    apply List.NoDup_nil. }
  split; [eexists; vm_compute; reflexivity|].
  split; reflexivity.
Qed.

(** Below [Prometheus] a stage is handed promhttp's delegator, not the
    wrapper [Prometheus] made: [Logger] there makes a wrapper of its own.
    A status written by the handler reaches both. *)
Example Logger_below_Prometheus :
  writers (worldOf
    (prometheusStage registered
       (Logger (Some "log"%string) (HandlerFunc [CallWriteHeader 404]))
       (ServerWriter 0) anyRequest
       (with_registry collectorNames (with_once true emptyWorld))))
  = [mkInfo 404 None; mkInfo 404 None].
Proof. reflexivity. Qed.

End PrometheusFacts.

Module ServerFacts.
Import Server.

Ltac assoc_list :=
  unfold Server.errorLog, Server.infoLog, shutdownSequence;
  try match goal with H : Shutdown _ _ = _ |- _ => rewrite ?H end;
  rewrite <- ?app_assoc; simpl; rewrite <- ?app_assoc; simpl;
  rewrite ?app_nil_r; reflexivity.

Ltac shape_with sig :=
  unfold Server.shape; simpl;
  split; [exists sig; assoc_list | repeat split; auto; try (simpl in *; lia); try discriminate].

Ltac break_shape H :=
  destruct H as ([sig0 Htr] & Hsub & Hcl & Hbuf & Herr & Hfault).

Section Coordinator.

Variable server : Server.
Variable waitTime : Z.
Variable logger : ShutdownLogger.

Local Abbreviation step := (step server waitTime logger).
Local Abbreviation next := (next server waitTime logger).
Local Abbreviation exec := (exec server waitTime logger).
Local Abbreviation shape := (shape server waitTime logger).
Local Abbreviation traceAt := (traceAt server waitTime logger).

Lemma shape_start : shape GracefulShutdown.
Proof. shape_with SIGINT. Qed.

Lemma shape_step s : shape s -> shape (step s).
Proof.
  intros H. unfold Server.step. destruct (fault s) eqn:Hf; [exact H|].
  break_shape H. rewrite Hf in Hfault.
  destruct s as [p sub buf closed tr flt]. simpl in *. subst flt.
  destruct p; simpl in *; subst.
  - shape_with sig0.
  - shape_with sig0.
  - shape_with sig0.
  - destruct buf as [|sig rest].
    + shape_with sig0.
    + shape_with sig.
  - destruct logger; shape_with sig0.
  - destruct (Shutdown server waitTime) eqn:Hs; destruct logger;
      shape_with sig0.
  - destruct logger; shape_with sig0.
  - unfold closeChannel; simpl. shape_with sig0.
  - shape_with sig0.
  - shape_with sig0.
Qed.

Lemma shape_deliver sig s : shape s -> shape (deliver sig s).
Proof.
  intros H. unfold deliver. destruct (fault s) eqn:Hf; [exact H|].
  break_shape H.
  destruct s as [p sub buf closed tr flt]. simpl in *. subst flt sub.
  destruct (existsb (Signal_eqb sig) (subscribedAt p)) eqn:Hsig.
  - destruct (length buf <? 1)%nat eqn:Hlen.
    + apply Nat.ltb_lt in Hlen.
      unfold Server.shape; simpl. split; [eauto|]. repeat split; auto.
      rewrite length_app. simpl. lia.
    + unfold Server.shape; simpl. split; [eauto|]. repeat split; auto.
  - unfold Server.shape, crash; simpl. split; [eauto|]. repeat split; auto.
    + unfold signalObserved. simpl.
      destruct p, sig; simpl in Hsig; try discriminate; reflexivity.
    + intros E. rewrite E in Hsig. destruct sig; discriminate.
Qed.

Lemma shape_next e s : shape s -> shape (next s e).
Proof. destruct e; [apply shape_deliver|apply shape_step]. Qed.

Lemma shape_exec schedule s : shape s -> shape (exec schedule s).
Proof.
  revert s. induction schedule as [|e l IH]; intros s H; [exact H|].
  apply IH. now apply shape_next.
Qed.

(** ** What the trace can hold *)

Lemma traceAt_counts sig p :
  (count isShutdown (traceAt sig p) <= 1
   /\ count isClose (traceAt sig p) <= 1
   /\ count isReceive (traceAt sig p) <= 1)%nat
  /\ (p = Exited ->
      count isShutdown (traceAt sig p) = 1%nat
      /\ count isClose (traceAt sig p) = 1%nat
      /\ count isReceive (traceAt sig p) = 1%nat)
  /\ closeGuarded waitTime false (traceAt sig p) = true.
Proof.
  unfold Server.traceAt, shutdownSequence, Server.errorLog, Server.infoLog.
  destruct p, logger, (Shutdown server waitTime); simpl;
    rewrite ?Z.eqb_refl; repeat split; intros; try discriminate; auto.
Qed.

Lemma closeGuarded_sound t : forall seen pre post,
  closeGuarded waitTime seen t = true ->
  t = pre ++ CloseIdleConnsClosed :: post ->
  seen = true \/ In (CallShutdown waitTime) pre.
Proof.
  induction t as [|a t IH]; intros seen pre post Hg Ht.
  - now destruct pre.
  - destruct pre as [|b pre]; simpl in Ht; inversion Ht; subst.
    + simpl in Hg. apply andb_true_iff in Hg. tauto.
    + destruct b; simpl in Hg;
        try (destruct (IH seen pre post Hg eq_refl); [now left|right; now right]).
      * destruct (IH _ pre post Hg eq_refl) as [Hs|Hin]; [|right; now right].
        apply orb_true_iff in Hs as [Hs|Hs]; [now left|].
        apply Z.eqb_eq in Hs. subst. right. now left.
      * apply andb_true_iff in Hg as [Hs Hg]. now left.
Qed.

(** ** Signals after the first *)

Lemma shape_observed s :
  shape s -> signalObserved s = true ->
  fault s = None /\ subscribed s = [SIGTERM; SIGINT].
Proof.
  intros H Ho. break_shape H. split.
  - destruct (fault s) as [[]|]; try tauto. destruct Hfault. congruence.
  - rewrite Hsub. unfold signalObserved in Ho. now destruct (pc s).
Qed.

Lemma sameRun_refl s : sameRun s s.
Proof. repeat split. Qed.

Lemma sameRun_trans s1 s2 s3 : sameRun s1 s2 -> sameRun s2 s3 -> sameRun s1 s3.
Proof. unfold sameRun. intuition congruence. Qed.

Lemma deliver_sameRun sig s :
  shape s -> signalObserved s = true -> sameRun (deliver sig s) s.
Proof.
  intros H Ho. destruct (shape_observed s H Ho) as [Hf Hsub].
  unfold deliver. rewrite Hf, Hsub.
  assert (existsb (Signal_eqb sig) [SIGTERM; SIGINT] = true) as ->
    by now destruct sig.
  destruct (length (gracefulStop s) <? 1)%nat; repeat split; auto.
Qed.

Lemma step_sameRun s s' :
  signalObserved s = true -> sameRun s s' -> sameRun (step s) (step s').
Proof.
  intros Ho (Hpc & Hsub & Hcl & Htr & Hf).
  destruct s as [p sub buf closed tr flt], s' as [p' sub' buf' closed' tr' flt'].
  simpl in *. subst. unfold Server.step, signalObserved in *. simpl in *.
  destruct flt'; [repeat split|].
  destruct p'; try discriminate; simpl; unfold closeChannel; simpl;
    destruct logger, (Shutdown server waitTime), closed'; simpl; repeat split.
Qed.

Lemma observed_next e s :
  signalObserved s = true -> signalObserved (next s e) = true.
Proof.
  intros Ho. destruct e as [sig|]; simpl.
  - unfold deliver, signalObserved in *.
    destruct (fault s); [assumption|].
    destruct (existsb _ _); [|assumption].
    now destruct (length (gracefulStop s) <? 1)%nat.
  - destruct s as [p sub buf closed tr flt].
    unfold Server.step, signalObserved in *. simpl in *.
    destruct flt; [assumption|].
    destruct p; try discriminate; simpl; try reflexivity.
    now destruct (Shutdown server waitTime).
Qed.

Lemma absorb more : forall s s',
  shape s -> signalObserved s = true -> sameRun s s' ->
  sameRun (exec more s) (exec (List.filter isRun more) s').
Proof.
  induction more as [|e more IH]; intros s s' H Ho Hs; [exact Hs|].
  destruct e as [sig|]; simpl.
  - apply IH.
    + now apply shape_deliver.
    + now apply (observed_next (Deliver sig)).
    + eapply sameRun_trans; [apply deliver_sameRun; assumption|exact Hs].
  - apply IH.
    + now apply shape_step.
    + now apply (observed_next Run).
    + now apply step_sameRun.
Qed.

(** ** Progress *)

Lemma step_distance s :
  shape s -> signalObserved s = true ->
  (distance (pc (step s)) <= pred (distance (pc s)))%nat.
Proof.
  intros H Ho. destruct (shape_observed s H Ho) as [Hf _].
  destruct s as [p sub buf closed tr flt].
  unfold Server.step, signalObserved in *. simpl in *. subst flt.
  destruct p; try discriminate; simpl; auto.
  destruct (Shutdown server waitTime); simpl; auto.
Qed.

Lemma run_progress k : forall s,
  shape s -> signalObserved s = true -> (distance (pc s) <= k)%nat ->
  pc (exec (repeat Run k) s) = Exited.
Proof.
  induction k as [|k IH]; intros s H Ho Hd.
  - simpl. unfold signalObserved in Ho.
    destruct (pc s); simpl in *; try discriminate; try lia; reflexivity.
  - simpl. apply IH.
    + now apply shape_step.
    + now apply (observed_next Run).
    + pose proof (step_distance s H Ho). lia.
Qed.

Lemma filter_isRun more : List.filter isRun more = repeat Run (count isRun more).
Proof.
  induction more as [|[sig|] more IH]; simpl; [reflexivity|assumption|].
  now rewrite IH.
Qed.

Lemma distance_le p : (distance p <= 5)%nat.
Proof. destruct p; simpl; lia. Qed.

Lemma progress s more :
  shape s -> signalObserved s = true -> (5 <= count isRun more)%nat ->
  pc (exec more s) = Exited
  /\ trace (exec more s) = trace (exec (List.filter isRun more) s).
Proof.
  intros H Ho Hk.
  destruct (absorb more s s H Ho (sameRun_refl s)) as (Hpc & _ & _ & Htr & _).
  split; [|exact Htr]. rewrite Hpc, filter_isRun.
  apply run_progress; try assumption. pose proof (distance_le (pc s)). lia.
Qed.

(** ** From the receive to the end *)

Lemma waiting_progress more : forall s,
  shape s -> pc s = AtReceive -> gracefulStop s <> [] ->
  (6 <= count isRun more)%nat ->
  pc (exec more s) = Exited /\ shape (exec more s).
Proof.
  induction more as [|e more IH]; intros s H Hpc Hbuf Hk; [simpl in Hk; lia|].
  destruct e as [sig|]; simpl in *.
  - apply IH; try assumption.
    + now apply shape_deliver.
    + unfold deliver. destruct (fault s); [assumption|].
      destruct (existsb _ _); [|assumption].
      now destruct (length (gracefulStop s) <? 1)%nat.
    + unfold deliver. destruct (fault s); [assumption|].
      destruct (existsb _ _); [|assumption].
      destruct (length (gracefulStop s) <? 1)%nat; [|assumption].
      simpl. now destruct (gracefulStop s).
  - assert (Hf : fault s = None).
    { destruct H as (_ & _ & _ & _ & _ & Hfault).
      destruct (fault s) as [[]|];
        [destruct Hfault; congruence|contradiction|contradiction|reflexivity]. }
    assert (Ho : signalObserved (step s) = true).
    { unfold Server.step, signalObserved. rewrite Hf, Hpc.
      destruct (gracefulStop s); [congruence|reflexivity]. }
    pose proof (shape_step s H) as H'.
    destruct (progress (step s) more H' Ho) as [Hex _]; [lia|].
    split; [exact Hex|]. now apply shape_exec.
Qed.

Lemma dead_stays more : forall s f, fault s = Some f -> exec more s = s.
Proof.
  induction more as [|e more IH]; intros s f Hf; [reflexivity|].
  simpl. assert (next s e = s) as ->.
  { destruct e; simpl; [unfold deliver|unfold Server.step]; now rewrite Hf. }
  now apply (IH s f).
Qed.

(** The trace only grows. *)
Lemma trace_grows e s a : In a (trace s) -> In a (trace (next s e)).
Proof.
  intros Hin. destruct e as [sig|]; simpl.
  - unfold deliver. destruct (fault s); [assumption|].
    destruct (existsb _ _); [|assumption].
    now destruct (length (gracefulStop s) <? 1)%nat.
  - unfold Server.step. destruct (fault s); [assumption|].
    destruct (pc s); simpl; unfold closeChannel;
      try (destruct (gracefulStop s)); try (destruct logger);
      try (destruct (Shutdown server waitTime));
      try (destruct (idleConnsClosed s)); simpl;
      try assumption; apply in_or_app; now left.
Qed.

Lemma trace_grows_exec more : forall s a,
  In a (trace s) -> In a (trace (exec more s)).
Proof.
  induction more as [|e more IH]; intros s a Hin; [exact Hin|].
  simpl. apply IH. now apply trace_grows.
Qed.

Lemma received_in_sequence sig sig' :
  In (Receive sig) (shutdownSequence server waitTime logger sig') -> sig = sig'.
Proof.
  unfold shutdownSequence, Server.infoLog, Server.errorLog.
  destruct logger, (Shutdown server waitTime); simpl;
    intuition (try discriminate; congruence).
Qed.

(** The signal that waits in the channel is the one the goroutine
    receives and acts on. *)
Lemma first_signal_drives more : forall s sig0 rest,
  shape s -> pc s = AtReceive -> gracefulStop s = sig0 :: rest ->
  (6 <= count isRun more)%nat ->
  trace (exec more s) = shutdownSequence server waitTime logger sig0.
Proof.
  induction more as [|e more IH]; intros s sig0 rest H Hpc Hbuf Hk;
    [simpl in Hk; lia|].
  destruct e as [sig|]; simpl in *.
  - apply (IH _ sig0 rest); try assumption.
    + now apply shape_deliver.
    + unfold deliver. destruct (fault s); [assumption|].
      destruct (existsb _ _); [|assumption].
      now destruct (length (gracefulStop s) <? 1)%nat.
    + unfold deliver. destruct (fault s); [assumption|].
      destruct (existsb _ _); [|assumption].
      rewrite Hbuf. simpl. exact Hbuf.
  - assert (Hf : fault s = None).
    { destruct H as (_ & _ & _ & _ & _ & Hfault).
      destruct (fault s) as [[]|];
        [destruct Hfault; congruence|contradiction|contradiction|reflexivity]. }
    assert (Ho : signalObserved (step s) = true).
    { unfold Server.step, signalObserved. now rewrite Hf, Hpc, Hbuf. }
    assert (Hin : In (Receive sig0) (trace (step s))).
    { unfold Server.step. rewrite Hf, Hpc, Hbuf. simpl.
      apply in_or_app. right. now left. }
    pose proof (shape_step s H) as H'.
    destruct (progress (step s) more H' Ho) as [Hex _]; [lia|].
    pose proof (shape_exec more (step s) H') as Hsh.
    destruct Hsh as ([sig' Htr] & _).
    rewrite Hex in Htr. simpl in Htr.
    pose proof (trace_grows_exec more (step s) _ Hin) as Hin'.
    rewrite Htr in Hin'. apply received_in_sequence in Hin'. now subst.
Qed.

Lemma count_app {A} (f : A -> bool) l l' :
  count f (l ++ l') = (count f l + count f l')%nat.
Proof. induction l as [|a l IH]; simpl; [reflexivity|]. rewrite IH. lia. Qed.

Lemma count_repeat_Run n : count isRun (repeat Run n) = n.
Proof. induction n as [|n IH]; simpl; [reflexivity|]. now rewrite IH. Qed.

(** ** The coordinator *)

Lemma reachable_shape schedule : shape (exec schedule GracefulShutdown).
Proof. apply shape_exec, shape_start. Qed.

(** What one signal delivered to a goroutine waiting at the receive leads
    to. *)
Lemma signal_at_receive s sig more :
  shape s -> pc s = AtReceive -> (6 <= count isRun more)%nat ->
  let s' := exec (Deliver sig :: more) s in
  pc s' = Exited /\ fault s' = None /\ idleConnsClosed s' = true
  /\ trace s' = shutdownSequence server waitTime logger (hd sig (gracefulStop s))
  /\ count isShutdown (trace s') = 1%nat
  /\ count isClose (trace s') = 1%nat
  /\ count isReceive (trace s') = 1%nat.
Proof.
  intros H Hpc Hk s'.
  assert (Hd : shape (deliver sig s)) by now apply shape_deliver.
  assert (Hbuf : pc (deliver sig s) = AtReceive
                 /\ exists rest,
                      gracefulStop (deliver sig s) = hd sig (gracefulStop s) :: rest).
  { destruct H as (_ & Hsub & _ & _ & _ & Hfault).
    unfold deliver. rewrite Hpc in *.
    destruct (fault s) as [[]|];
      [destruct Hfault; congruence|contradiction|contradiction|].
    rewrite Hsub.
    assert (existsb (Signal_eqb sig) (subscribedAt AtReceive) = true) as ->
      by now destruct sig.
    destruct (gracefulStop s) as [|sig1 rest] eqn:Hb; simpl; rewrite ?Hb; eauto. }
  destruct Hbuf as (Hpc' & rest & Hbuf).
  destruct (waiting_progress more (deliver sig s) Hd Hpc') as [Hex Hsh];
    [rewrite Hbuf; discriminate|exact Hk|].
  pose proof (first_signal_drives more (deliver sig s) _ rest Hd Hpc' Hbuf Hk) as Htr.
  change (exec more (deliver sig s)) with s' in *.
  pose proof Hsh as Hsh'.
  destruct Hsh as (_ & _ & Hcl & _ & _ & _).
  rewrite Hex in Hcl.
  destruct (traceAt_counts (hd sig (gracefulStop s)) Exited) as (_ & Hc & _).
  destruct (Hc eq_refl) as (C1 & C2 & C3).
  split; [exact Hex|]. split.
  { apply (shape_observed s' Hsh'). unfold signalObserved. now rewrite Hex. }
  split; [exact Hcl|]. split; [exact Htr|].
  rewrite Htr. auto.
Qed.

(** C2. However many termination signals reach the process, and whenever,
    the goroutine calls [Shutdown] at most once, closes the returned channel
    at most once (it never panics on a closed channel) and receives at most
    one signal; when it has finished it has done each exactly once.  Once
    it has received a signal, further signals change neither where it
    stands nor what it does, and five steps take it to its end.  And it
    does finish: once the goroutine waits at the receive, one signal
    delivered, whatever is delivered after it, leads within six steps to
    the end, with [Shutdown] called once and the channel closed once, the
    signal acted on being the first that reached the channel. *)
Theorem GracefulShutdown_acts_once schedule :
  let s := exec schedule GracefulShutdown in
  (count isShutdown (trace s) <= 1)%nat
  /\ (count isClose (trace s) <= 1)%nat
  /\ (count isReceive (trace s) <= 1)%nat
  /\ fault s <> Some CloseOfClosedChannel
  /\ (pc s = Exited ->
      count isShutdown (trace s) = 1%nat
      /\ count isClose (trace s) = 1%nat
      /\ count isReceive (trace s) = 1%nat)
  /\ (signalObserved s = true ->
      forall more,
        sameRun (exec more s) (exec (List.filter isRun more) s))
  /\ (signalObserved s = true ->
      forall more, (5 <= count isRun more)%nat -> pc (exec more s) = Exited)
  /\ (pc s = AtReceive ->
      forall sig more, (6 <= count isRun more)%nat ->
        let s' := exec (Deliver sig :: more) s in
        pc s' = Exited /\ fault s' = None /\ idleConnsClosed s' = true
        /\ trace s'
           = shutdownSequence server waitTime logger (hd sig (gracefulStop s))
        /\ count isShutdown (trace s') = 1%nat
        /\ count isClose (trace s') = 1%nat
        /\ count isReceive (trace s') = 1%nat)
  /\ (pc s = AtReceive ->
      forall sig more,
        actsOnce server waitTime logger (schedule ++ Deliver sig :: more)).
Proof.
  intros s. pose proof (reachable_shape schedule) as H. fold s in H.
  pose proof H as Hshape. break_shape H.
  destruct (traceAt_counts sig0 (pc s)) as ((C1 & C2 & C3) & Cex & _).
  rewrite <- Htr in *.
  split; [assumption|]. split; [assumption|]. split; [assumption|].
  split; [intros E; rewrite E in Hfault; exact Hfault|].
  split; [exact Cex|].
  split; [intros Ho more; apply absorb;
          [assumption|assumption|apply sameRun_refl]|].
  split; [intros Ho more Hk; now apply progress|].
  split; [intros Hpc sig more Hk; now apply signal_at_receive|].
  intros Hpc sig more _. exists 6%nat.
  rewrite <- app_assoc. unfold Server.exec. rewrite fold_left_app.
  change (fold_left (Server.next server waitTime logger) schedule GracefulShutdown)
    with s.
  change (fold_left (Server.next server waitTime logger)
            ((Deliver sig :: more) ++ repeat Run 6) s)
    with (exec (Deliver sig :: (more ++ repeat Run 6)) s).
  destruct (signal_at_receive s sig (more ++ repeat Run 6) Hshape Hpc)
    as (_ & _ & _ & _ & S1 & S2 & _).
  { rewrite count_app, count_repeat_Run. lia. }
  split; assumption.
Qed.

(** C4. The returned channel is closed only after [Shutdown] was called
    (and so has returned), and at most once.  A coordinator that has
    finished has run the whole sequence, with the error of [Shutdown]
    logged when there is an error and a logger, and without a panic either
    way; and once a signal is received the coordinator does finish, the
    channel closed. *)
Theorem close_after_Shutdown_returns schedule :
  let s := exec schedule GracefulShutdown in
  (forall pre post,
      trace s = pre ++ CloseIdleConnsClosed :: post ->
      In (CallShutdown waitTime) pre)
  /\ (count isClose (trace s) <= 1)%nat
  /\ (pc s = Exited ->
      (exists sig, trace s = shutdownSequence server waitTime logger sig)
      /\ fault s = None /\ idleConnsClosed s = true)
  /\ (signalObserved s = true -> fault s = None)
  /\ (signalObserved s = true ->
      forall more, (5 <= count isRun more)%nat ->
        pc (exec more s) = Exited
        /\ idleConnsClosed (exec more s) = true
        /\ fault (exec more s) = None
        /\ exists sig,
             trace (exec more s) = shutdownSequence server waitTime logger sig).
Proof.
  intros s. pose proof (reachable_shape schedule) as H. fold s in H.
  assert (Hex : forall s', shape s' -> pc s' = Exited ->
            (exists sig, trace s' = shutdownSequence server waitTime logger sig)
            /\ fault s' = None /\ idleConnsClosed s' = true).
  { intros s' H' E. pose proof H' as H''. break_shape H'. rewrite E in *.
    split; [eauto|]. split; [|assumption].
    apply (shape_observed s' H''). unfold signalObserved. now rewrite E. }
  pose proof H as Hshape. break_shape H.
  destruct (traceAt_counts sig0 (pc s)) as ((_ & C2 & _) & _ & Hg).
  rewrite <- Htr in *.
  split.
  { intros pre post Ht.
    destruct (closeGuarded_sound _ _ _ _ Hg Ht); [discriminate|assumption]. }
  split; [assumption|].
  split; [now apply Hex|].
  split; [intros Ho; now apply (shape_observed s)|].
  intros Ho more Hk.
  destruct (progress s more Hshape Ho Hk) as [Hpc _].
  destruct (Hex (exec more s) (shape_exec more s Hshape) Hpc) as (Hs & Hf & Hc).
  auto.
Qed.

End Coordinator.
Section NilLogger.

Variable server : Server.
Variable waitTime : Z.
Variable name : string.

Lemma dropLogs_snoc t a :
  dropLogs (t ++ [a]) = dropLogs t ++ (if isLog a then [] else [a]).
Proof.
  induction t as [|b t IH]; simpl.
  - now destruct (isLog a).
  - rewrite IH. now destruct (isLog b).
Qed.

Lemma count_dropLogs t : count isLog (dropLogs t) = 0%nat.
Proof.
  induction t as [|a t IH]; [reflexivity|].
  simpl. destruct (isLog a) eqn:E; [assumption|]. simpl. now rewrite E.
Qed.

Lemma sameButLogs_next e s0 s1 :
  sameButLogs s0 s1 ->
  sameButLogs (next server waitTime None s0 e)
              (next server waitTime (Some name) s1 e).
Proof.
  intros (Hpc & Hsub & Hbuf & Hcl & Hf & Htr).
  destruct s0 as [p0 sub0 buf0 closed0 tr0 flt0],
           s1 as [p sub buf closed tr flt].
  simpl in *. subst. destruct e as [sig|]; simpl.
  - unfold deliver. simpl. destruct flt; [repeat split|].
    destruct (existsb (Signal_eqb sig) sub); [|repeat split].
    destruct (length buf <? 1)%nat; repeat split.
  - unfold step. simpl. destruct flt; [repeat split|].
    destruct p; simpl; unfold sameButLogs, closeChannel; simpl;
      try (destruct buf); try (destruct (Shutdown server waitTime));
      try (destruct closed); simpl; rewrite ?dropLogs_snoc; simpl;
      rewrite ?app_nil_r; repeat split.
Qed.

Lemma sameButLogs_exec schedule : forall s0 s1,
  sameButLogs s0 s1 ->
  sameButLogs (exec server waitTime None schedule s0)
              (exec server waitTime (Some name) schedule s1).
Proof.
  induction schedule as [|e l IH]; intros s0 s1 H; [exact H|].
  simpl. apply IH. now apply sameButLogs_next.
Qed.

(** C7. With a nil logger the coordinator goes through the same states as
    with a logger, on every schedule: it subscribes, receives, calls
    [Shutdown] and closes the channel at the same steps, and its trace is
    the trace with a logger less the two log calls.  It calls no method of
    the nil logger: its trace has no log call and it never panics on a nil
    dereference. *)
Theorem nil_logger_is_safe schedule :
  let s0 := exec server waitTime None schedule GracefulShutdown in
  let s1 := exec server waitTime (Some name) schedule GracefulShutdown in
  sameButLogs s0 s1
  /\ count isLog (trace s0) = 0%nat
  /\ fault s0 <> Some NilDereference
  /\ (pc s0 = Exited ->
      exists sig,
        trace s0 = [Notify SIGTERM; Notify SIGINT; Receive sig;
                    CallShutdown waitTime; CloseIdleConnsClosed; CancelFunc]).
Proof.
  intros s0 s1.
  assert (Hsim : sameButLogs s0 s1).
  { apply sameButLogs_exec. repeat split. }
  split; [exact Hsim|].
  destruct Hsim as (_ & _ & _ & _ & _ & Hdrop).
  split; [rewrite Hdrop; apply count_dropLogs|].
  pose proof (reachable_shape server waitTime None schedule) as H. fold s0 in H.
  break_shape H. split.
  - intros E. rewrite E in Hfault. exact Hfault.
  - intros E. exists sig0. rewrite Htr, E. reflexivity.
Qed.

End NilLogger.

Lemma GracefulShutdown_acts_once_witness :
  pc (exec (mkServer (fun _ => None)) 5000000000 (Some "log"%string)
        [Run; Run; Run] GracefulShutdown) = AtReceive
  /\ (6 <= count isRun [Deliver SIGINT; Run; Run; Run; Run; Run; Run])%nat
  /\ pc (exec (mkServer (fun _ => None)) 5000000000 (Some "log"%string) twoSignals
           GracefulShutdown) = Exited
  /\ count isShutdown
       (trace (exec (mkServer (fun _ => None)) 5000000000 (Some "log"%string)
                 twoSignals GracefulShutdown)) = 1%nat
  /\ count isClose
       (trace (exec (mkServer (fun _ => None)) 5000000000 (Some "log"%string)
                 twoSignals GracefulShutdown)) = 1%nat
  /\ count isReceive
       (trace (exec (mkServer (fun _ => None)) 5000000000 (Some "log"%string)
                 twoSignals GracefulShutdown)) = 1%nat.
Proof.
  split; [reflexivity|]. split; [simpl; lia|].
  pose proof (GracefulShutdown_acts_once (mkServer (fun _ => None)) 5000000000
                (Some "log"%string) [Run; Run; Run]) as H.
  cbv zeta in H. destruct H as (_ & _ & _ & _ & _ & _ & _ & H & _).
  destruct (H eq_refl SIGINT [Deliver SIGINT; Run; Run; Run; Run; Run; Run])
    as (E & _ & _ & _ & S1 & S2 & S3); [simpl; lia|].
  split; [exact E|]. split; [exact S1|]. split; [exact S2|exact S3].
Defined.

(** C2 fails as stated for signals that come too early.  The
    subscriptions are made by the goroutine, after [GracefulShutdown] has
    returned: a signal delivered before its [signal.Notify] has run takes
    its default action and the process stops, [Shutdown] not called and
    the channel not closed, however long one waits.  So it is with two
    signals before the goroutine has run, and with a SIGINT after the first
    subscription and before the second. *)
Lemma GracefulShutdown_acts_once_fails :
  ~ actsOnce (mkServer (fun _ => None)) 5000000000 (Some "log"%string)
      [Deliver SIGINT; Deliver SIGTERM]
  /\ ~ actsOnce (mkServer (fun _ => None)) 5000000000 (Some "log"%string)
         [Run; Run; Deliver SIGTERM; Deliver SIGINT].
Proof.
  split; intros H; destruct H as (n & H & _); try (simpl; lia);
    cbv zeta in H; unfold exec in H; rewrite fold_left_app in H;
    match type of H with
    | context [fold_left ?f (repeat Run n) ?s0] =>
        change (fold_left f (repeat Run n) s0)
          with (exec (mkServer (fun _ => None)) 5000000000 (Some "log"%string)
                  (repeat Run n) s0) in H;
        rewrite (dead_stays (mkServer (fun _ => None)) 5000000000
                   (Some "log"%string) (repeat Run n) s0 (KilledBy SIGINT)
                   eq_refl) in H
    end;
    vm_compute in H; discriminate H.
Qed.

Lemma close_after_Shutdown_returns_witness :
  pc (exec (mkServer (fun _ => Some "context deadline exceeded"%string))
        5000000000 (Some "log"%string) twoSignals GracefulShutdown) = Exited
  /\ (exists sig,
        trace (exec (mkServer (fun _ => Some "context deadline exceeded"%string))
                 5000000000 (Some "log"%string) twoSignals GracefulShutdown)
        = shutdownSequence
            (mkServer (fun _ => Some "context deadline exceeded"%string))
            5000000000 (Some "log"%string) sig)
  /\ fault (exec (mkServer (fun _ => Some "context deadline exceeded"%string))
              5000000000 (Some "log"%string) twoSignals GracefulShutdown) = None
  /\ idleConnsClosed
       (exec (mkServer (fun _ => Some "context deadline exceeded"%string))
          5000000000 (Some "log"%string) twoSignals GracefulShutdown) = true.
Proof.
  split; [reflexivity|].
  pose proof (close_after_Shutdown_returns
                (mkServer (fun _ => Some "context deadline exceeded"%string))
                5000000000 (Some "log"%string) twoSignals) as H.
  cbv zeta in H. destruct H as (_ & _ & H & _).
  apply H. reflexivity.
Defined.

Lemma nil_logger_is_safe_witness :
  pc (exec (mkServer (fun _ => Some "context deadline exceeded"%string))
        5000000000 None twoSignals GracefulShutdown) = Exited
  /\ exists sig,
       trace (exec (mkServer (fun _ => Some "context deadline exceeded"%string))
                5000000000 None twoSignals GracefulShutdown)
       = [Notify SIGTERM; Notify SIGINT; Receive sig;
          CallShutdown 5000000000; CloseIdleConnsClosed; CancelFunc].
Proof.
  split; [reflexivity|].
  pose proof (nil_logger_is_safe
                (mkServer (fun _ => Some "context deadline exceeded"%string))
                5000000000 "log"%string twoSignals) as H.
  cbv zeta in H. destruct H as (_ & _ & _ & H).
  apply H. reflexivity.
Defined.

End ServerFacts.

Module BodyFacts.
Import Middleware WriterFacts.

(** ** What a handler body does to the world *)

Lemma sameElsewhere_refl st : sameElsewhere st st.
Proof. repeat split. Qed.

Lemma sameElsewhere_trans st1 st2 st3 :
  sameElsewhere st1 st2 -> sameElsewhere st2 st3 -> sameElsewhere st1 st3.
Proof. unfold sameElsewhere. intuition congruence. Qed.

Lemma panicOf_neverPanics body : neverPanics body = true <-> panicOf body = None.
Proof.
  induction body as [|s body IH]; simpl; [tauto|].
  destruct s; simpl; try exact IH. split; discriminate.
Qed.

Lemma execStmt_run w s st :
  isPanic s = false ->
  exists st1,
    execStmt w s st = Returned tt st1
    /\ wire st1 = wire st ++ map (pair (connOf w)) (sent [s])
    /\ output st1 = output st ++ printed [s]
    /\ clock st1 = clock st + slept [s]
    /\ sameElsewhere st st1
    /\ (length (writers st) <= length (writers st1))%nat.
Proof.
  destruct s; simpl; intros Hs; try discriminate.
  - destruct (WriteHeader_effect w code st) as (ws & [L _] & ->).
    eexists; split; [reflexivity|]. simpl.
    rewrite app_nil_r, Z.add_0_r, L. repeat split. lia.
  - eexists; split; [reflexivity|]. simpl.
    rewrite app_nil_r, Z.add_0_r. repeat split. lia.
  - assert (forall p st0, exists st1,
              WriteError p err st0 = Returned tt st1
              /\ wire st1 = wire st0 /\ output st1 = output st0
              /\ clock st1 = clock st0 /\ sameElsewhere st0 st1
              /\ length (writers st1) = length (writers st0)) as HW.
    { intros p st0. unfold WriteError, modify. eexists; split; [reflexivity|].
      destruct (writers st0 !! p); simpl; rewrite ?length_insert; repeat split. }
    unfold bind. destruct w; simpl;
      match goal with |- context [WriteError ?p err ?s] =>
        destruct (HW p s) as (st1 & -> & W1 & O1 & C1 & (F1 & F2 & F3 & F4 & F5) & L1) end;
      (eexists; split; [reflexivity|]); rewrite W1, O1, C1, L1; simpl;
      rewrite ?app_nil_r, ?Z.add_0_r, ?length_app; simpl;
      repeat split; auto; lia.
  - eexists; split; [reflexivity|]. simpl.
    rewrite app_nil_r, Z.add_0_r. repeat split. lia.
  - eexists; split; [reflexivity|]. simpl.
    rewrite !app_nil_r, Z.add_0_r. repeat split. lia.
Qed.

Lemma body_cons s body :
  isPanic s = false ->
  sent (s :: body) = sent [s] ++ sent body
  /\ printed (s :: body) = printed [s] ++ printed body
  /\ slept (s :: body) = slept [s] + slept body
  /\ panicOf (s :: body) = panicOf body.
Proof. destruct s; simpl; intros; try discriminate; repeat split; lia. Qed.

(** A body makes its calls, prints its lines and sleeps, up to its first
    panic, and returns or panics accordingly; it leaves the rest of the
    world alone. *)
Lemma HandlerFunc_run body w r : forall st,
  let res := HandlerFunc body w r st in
  res = match panicOf body with
        | Some v => Panicked v (worldOf res)
        | None => Returned tt (worldOf res)
        end
  /\ wire (worldOf res) = wire st ++ map (pair (connOf w)) (sent body)
  /\ output (worldOf res) = output st ++ printed body
  /\ clock (worldOf res) = clock st + slept body
  /\ sameElsewhere st (worldOf res)
  /\ (length (writers st) <= length (writers (worldOf res)))%nat.
Proof.
  induction body as [|s body IH]; intros st.
  - simpl. rewrite !app_nil_r, Z.add_0_r. repeat split. lia.
  - destruct (isPanic s) eqn:Hs.
    + destruct s; try discriminate. simpl.
      rewrite !app_nil_r, Z.add_0_r. repeat split. lia.
    + destruct (execStmt_run w s st Hs) as (st1 & E1 & W1 & O1 & C1 & F1 & L1).
      destruct (body_cons s body Hs) as (-> & -> & -> & ->).
      specialize (IH st1). cbv zeta in IH.
      destruct IH as (E2 & W2 & O2 & C2 & F2 & L2).
      cbv zeta.
      change (HandlerFunc (s :: body) w r st)
        with (bind (execStmt w s) (fun _ => HandlerFunc body w r) st).
      unfold bind. rewrite E1.
      rewrite W2, O2, C2, W1, O1, C1, map_app, <- !app_assoc.
      split; [exact E2|]. split; [reflexivity|]. split; [reflexivity|].
      split; [lia|]. split; [eapply sameElsewhere_trans; eassumption|lia].
Qed.

End BodyFacts.

Module LoggerFacts.
Import Middleware WriterFacts LimiterFacts BodyFacts.

(** ** Logger and the response *)

Lemma NewResponseWriter_frame w st :
  exists rw st1,
    NewResponseWriter w st = Returned rw st1
    /\ connOf rw = connOf w
    /\ wire st1 = wire st /\ output st1 = output st /\ clock st1 = clock st.
Proof. destruct w; simpl; eexists _, _; repeat split. Qed.

Lemma logEntry_frame logger e st :
  wire (worldOf (logEntry logger e st)) = wire st
  /\ clock (worldOf (logEntry logger e st)) = clock st.
Proof. destruct logger; split; reflexivity. Qed.

(** [Logger] adds nothing to what the next handler does on the connection
    and takes no time. *)
Lemma Logger_frame logger h w r st rw st1 :
  NewResponseWriter w st = Returned rw st1 ->
  wire (worldOf (Logger logger h w r st)) = wire (worldOf (h rw r st1))
  /\ clock (worldOf (Logger logger h w r st)) = clock (worldOf (h rw r st1)).
Proof.
  intros Hnew. unfold Logger, bind. rewrite Hnew. simpl.
  destruct (h rw r st1) as [[] st2|v st2]; simpl; [|split; reflexivity].
  destruct (readInfo rw st2) as [i st3|v st3] eqn:Hread.
  - assert (st3 = st2) as ->.
    { unfold readInfo in Hread. destruct rw; try discriminate.
      destruct (writers st2 !! p); inversion Hread; reflexivity. }
    simpl. destruct (responseError i); apply logEntry_frame.
  - assert (st3 = st2) as ->.
    { unfold readInfo in Hread. destruct rw; try (inversion Hread; reflexivity).
      destruct (writers st2 !! p); inversion Hread; reflexivity. }
    split; reflexivity.
Qed.


Lemma recorded_neverWritesError body i :
  neverWritesError body = true -> responseError (recorded body i) = responseError i.
Proof.
  revert i. induction body as [|s body IH]; intros i Hb; [reflexivity|].
  simpl in Hb. apply andb_true_iff in Hb as [Hs Hb].
  destruct s; simpl in *; try discriminate; try (now apply IH); try reflexivity.
  now rewrite IH.
Qed.

Lemma recorded_last_WriteError pre err post i :
  neverPanics pre = true -> neverWritesError post = true ->
  responseError (recorded (pre ++ CallWriteError err :: post) i) = Some err.
Proof.
  revert i. induction pre as [|s pre IH]; intros i Hpre Hpost.
  - simpl. now rewrite recorded_neverWritesError.
  - simpl in Hpre. apply andb_true_iff in Hpre as [Hs Hpre].
    apply negb_true_iff in Hs. simpl app. rewrite recorded_cons by assumption.
    now apply IH.
Qed.

(** The entry [Logger] writes for a body that returns. *)
Lemma Logger_entry name body conn r st :
  neverPanics body = true ->
  exists st',
    Logger (Some name) (HandlerFunc body) (ServerWriter conn) r st = Returned tt st'
    /\ output st'
       = output st ++ printed body
         ++ [Logrus name (requestEntry r (recorded body (mkInfo StatusOK None))
                            (slept body))]
    /\ wire st' = wire st ++ map (pair conn) (sent body).
Proof.
  intros Hb.
  destruct (Logger_HandlerFunc name body conn r st Hb) as (st2 & E2 & O2 & _ & E).
  pose proof (HandlerFunc_run body (InfoPtr (length (writers st)) (ServerWriter conn))
                r (with_writers (writers st ++ [mkInfo StatusOK None]) st)) as Hrun.
  cbv zeta in Hrun. rewrite E2 in Hrun. simpl in Hrun.
  destruct Hrun as (_ & W2 & _ & C2 & _).
  eexists. split; [exact E|]. simpl. rewrite O2, C2, <- app_assoc.
  replace (clock st + slept body - clock st) with (slept body) by lia.
  auto.
Qed.

(** X2. For a handler body that returns, [Logger] writes one entry after
    the lines of the body, with the time the body took: at info level and
    without an error when the body never calls [WriteError], at error level
    and with the error of the last [WriteError] call otherwise. *)
Theorem Logger_level_follows_WriteError name body conn r st :
  neverPanics body = true ->
  exists st' e,
    Logger (Some name) (HandlerFunc body) (ServerWriter conn) r st = Returned tt st'
    /\ output st' = output st ++ printed body ++ [Logrus name e]
    /\ lookupField "elapsed" (fields e) = Some (VInt (slept body))
    /\ (neverWritesError body = true ->
        level e = InfoLevel /\ entryError e = None)
    /\ (forall pre err post,
          body = pre ++ CallWriteError err :: post ->
          neverWritesError post = true ->
          level e = ErrorLevel /\ entryError e = Some err).
Proof.
  intros Hb. destruct (Logger_entry name body conn r st Hb) as (st' & E & O & _).
  eexists _, _. split; [exact E|]. split; [exact O|]. split; [reflexivity|].
  unfold requestEntry. simpl. split.
  - intros Hn. now rewrite recorded_neverWritesError.
  - intros pre err post -> Hpost.
    rewrite recorded_last_WriteError; auto.
    unfold neverPanics in *. rewrite forallb_app in Hb.
    now apply andb_true_iff in Hb as [Hpre _].
Qed.

Lemma Logger_level_follows_WriteError_witness :
  neverPanics [CallWriteHeader 500; CallWriteError "db down"%string;
               CallSleep 7] = true
  /\ exists st' e,
    Logger (Some "log"%string)
      (HandlerFunc [CallWriteHeader 500; CallWriteError "db down"%string;
                    CallSleep 7])
      (ServerWriter 0) anyRequest emptyWorld = Returned tt st'
    /\ output st'
       = output emptyWorld
         ++ printed [CallWriteHeader 500; CallWriteError "db down"%string;
                     CallSleep 7]
         ++ [Logrus "log" e]
    /\ lookupField "elapsed" (fields e)
       = Some (VInt (slept [CallWriteHeader 500; CallWriteError "db down"%string;
                            CallSleep 7]))
    /\ (neverWritesError [CallWriteHeader 500; CallWriteError "db down"%string;
                          CallSleep 7] = true ->
        level e = InfoLevel /\ entryError e = None)
    /\ (forall pre err post,
          [CallWriteHeader 500; CallWriteError "db down"%string; CallSleep 7]
          = pre ++ CallWriteError err :: post ->
          neverWritesError post = true ->
          level e = ErrorLevel /\ entryError e = Some err).
Proof.
  split; [reflexivity|].
  apply (Logger_level_follows_WriteError "log"
           [CallWriteHeader 500; CallWriteError "db down"%string; CallSleep 7]
           0%nat anyRequest emptyWorld).
  reflexivity.
Defined.

End LoggerFacts.

Module StatusFacts.
Import Middleware WriterFacts LimiterFacts BodyFacts LoggerFacts.

(** ** The status logged and the status sent *)

Lemma sent_app pre rest :
  neverPanics pre = true -> sent (pre ++ rest) = sent pre ++ sent rest.
Proof.
  induction pre as [|s pre IH]; intros Hp; [reflexivity|].
  simpl in Hp. apply andb_true_iff in Hp as [Hs Hp].
  destruct s; simpl in *; try discriminate; rewrite ?IH; auto.
Qed.

Lemma sent_quiet pre :
  neverWritesHeader pre = true -> neverWrites pre = true -> sent pre = [].
Proof.
  induction pre as [|s pre IH]; intros Hh Hw; [reflexivity|].
  simpl in Hh, Hw. apply andb_true_iff in Hh as [Hs1 Hh].
  apply andb_true_iff in Hw as [Hs2 Hw].
  destruct s; simpl in *; try discriminate; auto.
Qed.

Lemma sent_starts_with_Write pre :
  neverPanics pre = true -> neverWritesHeader pre = true -> neverWrites pre = false ->
  exists b rest, sent pre = Wrote b :: rest.
Proof.
  induction pre as [|s pre IH]; intros Hp Hh Hw; [discriminate|].
  simpl in Hp, Hh, Hw. apply andb_true_iff in Hp as [Hs0 Hp].
  apply andb_true_iff in Hh as [Hs1 Hh].
  destruct s; simpl in *; try discriminate; eauto.
Qed.

Lemma statusSent_neverWritesHeader conn body :
  neverWritesHeader body = true -> statusSent conn (sent body) = StatusOK.
Proof.
  unfold statusSent. induction body as [|s body IH]; intros Hh; [reflexivity|].
  simpl in Hh. apply andb_true_iff in Hh as [Hs Hh].
  destruct s; simpl in *; try discriminate; auto.
  now rewrite Nat.eqb_refl.
Qed.

Lemma neverPanics_app pre post :
  neverPanics (pre ++ post) = true ->
  neverPanics pre = true /\ neverPanics post = true.
Proof. unfold neverPanics. rewrite forallb_app. apply andb_true_iff. Qed.

(** X3. Through net/http, for a handler body that returns and gives
    [WriteHeader] only codes net/http accepts (100 to 999): the client
    gets the status of the body's first call that commits the header, and
    [Logger] logs the code of its last [WriteHeader] call.  The two agree
    (on 200) when the body never calls [WriteHeader], and (on the code)
    when it calls [WriteHeader] once, before any [Write], with a code that
    is not informational; when the code is informational, or a [Write]
    comes first, the client gets 200 and the log says the code. *)
Theorem Logger_status_and_response name body r st :
  wireFresh st -> neverPanics body = true -> validCodes body = true ->
  exists st' e,
    serve (Logger (Some name) (HandlerFunc body)) r st
    = Returned (Some (statusSent (conns st) (sent body))) st'
    /\ output st' = output st ++ printed body ++ [Logrus name e]
    /\ lookupField "status" (fields e)
       = Some (VInt (statusCode (recorded body (mkInfo StatusOK None))))
    /\ (neverWritesHeader body = true ->
        statusSent (conns st) (sent body) = StatusOK
        /\ statusCode (recorded body (mkInfo StatusOK None)) = StatusOK)
    /\ (forall pre code post,
          body = pre ++ CallWriteHeader code :: post ->
          neverWritesHeader pre = true -> neverWritesHeader post = true ->
          statusCode (recorded body (mkInfo StatusOK None)) = code
          /\ (neverWrites pre = true -> informational code = false ->
              statusSent (conns st) (sent body) = code)
          /\ (neverWrites pre = true -> informational code = true ->
              statusSent (conns st) (sent body) = StatusOK)
          /\ (neverWrites pre = false ->
              statusSent (conns st) (sent body) = StatusOK)).
Proof.
  intros Hf Hb _.
  destruct (Logger_entry name body (conns st) r (with_conns (S (conns st)) st) Hb)
    as (st' & E & O & W).
  eexists _, _. split.
  { unfold serve. rewrite E. do 2 f_equal. rewrite W. simpl.
    now rewrite responseStatus_unused by now apply wireFresh_unused. }
  split; [exact O|]. split; [reflexivity|]. split.
  - intros Hn. split; [now apply statusSent_neverWritesHeader|].
    now rewrite recorded_neverWritesHeader.
  - intros pre code post -> Hpre Hpost.
    destruct (neverPanics_app _ _ Hb) as [Hp _].
    split; [now apply recorded_last_WriteHeader|]. split; [|split].
    + intros Hw Hi. rewrite sent_app, sent_quiet by assumption. simpl.
      unfold statusSent. simpl. now rewrite Nat.eqb_refl, Hi.
    + intros Hw Hi. rewrite sent_app, sent_quiet by assumption. simpl.
      unfold statusSent. simpl. rewrite Nat.eqb_refl, Hi.
      now apply statusSent_neverWritesHeader.
    + intros Hw. destruct (sent_starts_with_Write pre Hp Hpre Hw) as (b & rest & Hs).
      rewrite sent_app, Hs by assumption.
      unfold statusSent. simpl. now rewrite Nat.eqb_refl.
Qed.

Lemma Logger_status_and_response_witness :
  wireFresh emptyWorld
  /\ neverPanics [CallWrite "oops"; CallWriteHeader 404] = true
  /\ validCodes [CallWrite "oops"; CallWriteHeader 404] = true
  /\ exists st' e,
    serve (Logger (Some "log"%string)
             (HandlerFunc [CallWrite "oops"; CallWriteHeader 404]))
          anyRequest emptyWorld
    = Returned (Some 200) st'
    /\ output st' = [Logrus "log" e]
    /\ lookupField "status" (fields e) = Some (VInt 404).
Proof.
  split; [apply wireFresh_empty|]. split; [reflexivity|]. split; [reflexivity|].
  destruct (Logger_status_and_response "log"
              [CallWrite "oops"; CallWriteHeader 404] anyRequest emptyWorld
              wireFresh_empty eq_refl eq_refl) as (st' & e & E & O & S & _).
  exists st', e. split; [exact E|]. split; [exact O|exact S].
Defined.

(** ** The Logger before the wrapper *)

(** X4. For a handler body that returns and reports no error, the [Logger]
    of the older file and the [Logger] with the wrapper write the same
    entry but for the status field, which only the newer one has; the
    response and the clock are the same under both. *)
Theorem Logger_versions_agree name body conn r st :
  neverPanics body = true -> neverWritesError body = true ->
  exists st1 st2 e,
    Logger (Some name) (HandlerFunc body) (ServerWriter conn) r st = Returned tt st1
    /\ Legacy.Logger (Some name) (HandlerFunc body) (ServerWriter conn) r st
       = Returned tt st2
    /\ output st1 = output st ++ printed body ++ [Logrus name e]
    /\ output st2 = output st ++ printed body ++ [Logrus name (Legacy.withoutStatus e)]
    /\ wire st1 = wire st2 /\ clock st1 = clock st2.
Proof.
  intros Hb He.
  destruct (Logger_entry name body conn r st Hb) as (st1 & E & O & W).
  destruct (NewResponseWriter_frame (ServerWriter conn) st)
    as (rw & st0 & Hnew & _ & _ & _ & Ht).
  destruct (Logger_frame (Some name) (HandlerFunc body) _ r st rw st0 Hnew) as [_ C].
  destruct (HandlerFunc_run body rw r st0) as (_ & _ & _ & C' & _).
  rewrite C', Ht, E in C. simpl in C.
  pose proof (HandlerFunc_run body (ServerWriter conn) r st) as Hrun.
  cbv zeta in Hrun. destruct Hrun as (Eh & Wh & Oh & Ch & _).
  apply panicOf_neverPanics in Hb. rewrite Hb in Eh.
  eexists st1, _, _. split; [exact E|]. split.
  { unfold Legacy.Logger, bind. simpl. rewrite Eh. reflexivity. }
  split; [exact O|]. simpl. rewrite Oh, Wh, W, <- app_assoc.
  split; [|split; [reflexivity|now rewrite Ch]].
  do 3 f_equal. unfold Legacy.withoutStatus, requestEntry. simpl.
  rewrite recorded_neverWritesError by assumption. simpl.
  rewrite Ch. replace (clock st + slept body - clock st) with (slept body) by lia.
  reflexivity.
Qed.

Lemma Logger_versions_agree_witness :
  exists st1 st2 e,
    Logger (Some "log"%string) (HandlerFunc [CallWriteHeader 201; CallSleep 5])
      (ServerWriter 0%nat) anyRequest emptyWorld = Returned tt st1
    /\ Legacy.Logger (Some "log"%string)
         (HandlerFunc [CallWriteHeader 201; CallSleep 5])
         (ServerWriter 0%nat) anyRequest emptyWorld = Returned tt st2
    /\ output st1 = [Logrus "log" e]
    /\ output st2 = [Logrus "log" (Legacy.withoutStatus e)]
    /\ wire st1 = wire st2 /\ clock st1 = clock st2.
Proof.
  apply (Logger_versions_agree "log" [CallWriteHeader 201; CallSleep 5]
           0%nat anyRequest emptyWorld); reflexivity.
Defined.

End StatusFacts.

Module PanicFacts.
Import Middleware WriterFacts LimiterFacts BodyFacts LoggerFacts.

(** ** PanicRecovery, Logger and net/http *)

Lemma HandlerFunc_panics body w r st v :
  panicOf body = Some v ->
  exists st2,
    HandlerFunc body w r st = Panicked v st2
    /\ wire st2 = wire st ++ map (pair (connOf w)) (sent body)
    /\ output st2 = output st ++ printed body
    /\ clock st2 = clock st + slept body.
Proof.
  intros Hp. pose proof (HandlerFunc_run body w r st) as Hrun. cbv zeta in Hrun.
  destruct Hrun as (E & W & O & C & _). rewrite Hp in E.
  eexists. split; [exact E|]. auto.
Qed.

Lemma HandlerFunc_result body w r st :
  exists st2,
    HandlerFunc body w r st
    = match panicOf body with
      | Some v => Panicked v st2
      | None => Returned tt st2
      end
    /\ wire st2 = wire st ++ map (pair (connOf w)) (sent body)
    /\ output st2 = output st ++ printed body
    /\ clock st2 = clock st + slept body.
Proof.
  pose proof (HandlerFunc_run body w r st) as Hrun. cbv zeta in Hrun.
  destruct Hrun as (E & W & O & C & _). eexists. split; [exact E|]. auto.
Qed.

(** X5. The order of [Logger] and [PanicRecovery] decides what is logged
    for a handler that panics.  Registered as in the test, [Logger] and
    then [PanicRecovery], the panic passes through [Logger], which writes
    nothing, and only the recovery is logged.  Registered the other way
    round, the panic is recovered below [Logger], which then logs the
    request with the status recorded up to the panic. *)
Theorem PanicRecovery_order_decides_log l1 l2 body conn r st v :
  panicOf body = Some v ->
  (exists st',
      AddMiddlewares (HandlerFunc body) [Logger (Some l1); PanicRecovery (Some l2)]
        (ServerWriter conn) r st = Returned tt st'
      /\ output st' = output st ++ printed body ++ [Logrus l2 (panicEntry v)])
  /\ (exists st',
      AddMiddlewares (HandlerFunc body) [PanicRecovery (Some l2); Logger (Some l1)]
        (ServerWriter conn) r st = Returned tt st'
      /\ output st'
         = output st ++ printed body
           ++ [Logrus l2 (panicEntry v);
               Logrus l1 (requestEntry r (recorded body (mkInfo StatusOK None))
                            (slept body))]).
Proof.
  intros Hp.
  set (p := length (writers st)).
  set (st1 := with_writers (writers st ++ [mkInfo StatusOK None]) st).
  set (rw := InfoPtr p (ServerWriter conn)).
  destruct (HandlerFunc_panics body rw r st1 v Hp) as (st2 & E2 & W2 & O2 & C2).
  pose proof (HandlerFunc_recorded body p (ServerWriter conn) r st1
                (mkInfo StatusOK None) (fresh_wrapper_lookup _ _)) as Hrec.
  fold rw in Hrec. rewrite E2 in Hrec. simpl in Hrec.
  split.
  - eexists. split.
    + simpl. unfold PanicRecovery, defer_recover, Logger, bind. simpl.
      fold p st1 rw. rewrite E2. reflexivity.
    + simpl. rewrite O2. unfold panicEntry. now rewrite <- app_assoc.
  - set (st3 := with_output (output st2 ++ [Logrus l2 (panicEntry v)]) st2).
    assert (Hin : PanicRecovery (Some l2) (HandlerFunc body) rw r st1
                  = Returned tt st3).
    { unfold PanicRecovery, defer_recover. rewrite E2. reflexivity. }
    pose proof (Logger_returns l1 (PanicRecovery (Some l2) (HandlerFunc body))
                  (ServerWriter conn) r st rw st1 st3
                  (recorded body (mkInfo StatusOK None)) eq_refl Hin) as Hout.
    eexists. split.
    + simpl. apply Hout. unfold readInfo. simpl. now rewrite Hrec.
    + simpl. rewrite O2, C2. simpl. rewrite <- !app_assoc. simpl.
      replace (clock st + slept body - clock st) with (slept body) by lia.
      reflexivity.
Qed.

Lemma PanicRecovery_order_decides_log_witness :
  panicOf [CallWriteHeader 503; CallPanic "boom"%string] = Some "boom"%string
  /\ (exists st',
      AddMiddlewares (HandlerFunc [CallWriteHeader 503; CallPanic "boom"%string])
        [Logger (Some "access"%string); PanicRecovery (Some "errors"%string)]
        (ServerWriter 0) anyRequest emptyWorld = Returned tt st'
      /\ output st' = [Logrus "errors" (panicEntry "boom"%string)])
  /\ (exists st',
      AddMiddlewares (HandlerFunc [CallWriteHeader 503; CallPanic "boom"%string])
        [PanicRecovery (Some "errors"%string); Logger (Some "access"%string)]
        (ServerWriter 0) anyRequest emptyWorld = Returned tt st'
      /\ output st'
         = [Logrus "errors" (panicEntry "boom"%string);
            Logrus "access" (requestEntry anyRequest (mkInfo 503 None) 0)]).
Proof.
  split; [reflexivity|].
  apply (PanicRecovery_order_decides_log "access" "errors"
           [CallWriteHeader 503; CallPanic "boom"%string] 0%nat anyRequest
           emptyWorld "boom"%string).
  reflexivity.
Defined.

(** X6. [PanicRecovery] writes nothing on the connection.  Through
    net/http a handler under it, giving [WriteHeader] only codes net/http
    accepts (100 to 999), is always answered: the client gets the status
    of what the body sent before it returned or panicked, so 200 with an
    empty body, not 500, when it panicked before sending anything.
    Without the stage the client of a handler that panics before sending
    anything gets no response. *)
Theorem PanicRecovery_sends_no_status name body r st :
  wireFresh st -> validCodes body = true ->
  (exists st',
      serve (PanicRecovery (Some name) (HandlerFunc body)) r st
      = Returned (Some (statusSent (conns st) (sent body))) st'
      /\ wire st' = wire st ++ map (pair (conns st)) (sent body))
  /\ (sent body = [] -> statusSent (conns st) (sent body) = StatusOK)
  /\ (forall v, panicOf body = Some v -> sent body = [] ->
      exists st', serve (HandlerFunc body) r st = Returned None st').
Proof.
  intros Hf _.
  destruct (HandlerFunc_result body (ServerWriter (conns st)) r
              (with_conns (S (conns st)) st)) as (st2 & E & W & O & C).
  simpl in W. split; [|split].
  - unfold serve, PanicRecovery, defer_recover. rewrite E.
    destruct (panicOf body); simpl; rewrite W;
      rewrite responseStatus_unused by (now apply wireFresh_unused);
      (eexists; split; [reflexivity|exact W]).
  - intros ->. reflexivity.
  - intros v Hp _. unfold serve. rewrite E, Hp. eauto.
Qed.

Lemma PanicRecovery_sends_no_status_witness :
  wireFresh emptyWorld
  /\ validCodes [CallPanic "boom"%string; CallWriteHeader 500] = true
  /\ exists st',
       serve (PanicRecovery (Some "errors"%string)
                (HandlerFunc [CallPanic "boom"%string; CallWriteHeader 500]))
             anyRequest emptyWorld
       = Returned (Some 200) st'
       /\ wire st' = [].
Proof.
  split; [apply wireFresh_empty|]. split; [reflexivity|].
  destruct (PanicRecovery_sends_no_status "errors"
              [CallPanic "boom"%string; CallWriteHeader 500] anyRequest emptyWorld
              wireFresh_empty eq_refl) as ((st' & E & W) & _).
  exists st'. split; [exact E|exact W].
Defined.

End PanicFacts.

Module ShortCircuitFacts.
Import Middleware ChainFacts WriterFacts LimiterFacts BodyFacts LoggerFacts.

(** ** A refusal inside a chain *)

(** X7. Chaining composes: stages added by a second call of
    [AddMiddlewares] wrap the handler the first call returned, as if all had
    been given to one call; without stages the handler comes back as it
    is. *)
Theorem AddMiddlewares_composes :
  (forall h ms1 ms2,
      AddMiddlewares (AddMiddlewares h ms1) ms2 = AddMiddlewares h (ms1 ++ ms2))
  /\ (forall h, AddMiddlewares h [] = h)
  /\ (forall h ms m w r st,
      AddMiddlewares h (ms ++ [m]) w r st = m (AddMiddlewares h ms) w r st).
Proof.
  split; [|split].
  - intros h ms1 ms2. unfold AddMiddlewares. now rewrite fold_left_app.
  - reflexivity.
  - intros. now rewrite AddMiddlewares_snoc.
Qed.

Lemma rateLimiterStage_refuses p lim h w r st :
  limiters st !! p = Some lim ->
  fst (reserveN lim (clock st)) = false ->
  rateLimiterStage p h w r st
  = Error w (StatusText StatusTooManyRequests) StatusTooManyRequests
      (with_limiters (<[p := snd (reserveN lim (clock st))]> (limiters st)) st).
Proof.
  intros Hp Hno. unfold rateLimiterStage, bind.
  rewrite (Allow_decision _ _ _ Hp), Hno. reflexivity.
Qed.

(** X8. A refusal stops the request where the limiter stands: of a chain
    with stages registered before the limiter (inside it) and after it
    (outside it), the outside stages run their code before and after as
    usual, and neither the inside stages nor the terminal handler run;
    the outcome is the same whatever they are. *)
Theorem RateLimiter_short_circuits logger inner outer p lim h w r st :
  limiters st !! p = Some lim ->
  fst (reserveN lim (clock st)) = false ->
  exists st',
    AddMiddlewares h
      (map (createMiddleware logger) inner ++ [rateLimiterStage p]
       ++ map (createMiddleware logger) outer) w r st
    = Returned tt st'
    /\ output st' = output st ++ map (Println logger) (rev outer ++ outer)
    /\ wire st' = wire st ++ map (pair (connOf w)) tooManyRequests
    /\ forall h' inner',
         AddMiddlewares h'
           (map (createMiddleware logger) inner' ++ [rateLimiterStage p]
            ++ map (createMiddleware logger) outer) w r st
         = Returned tt st'.
Proof.
  intros Hp Hno.
  set (st1 := with_output (output st ++ map (Println logger) (rev outer)) st).
  set (st2 := with_limiters (<[p := snd (reserveN lim (clock st1))]> (limiters st1)) st1).
  destruct (Error_effect w st2) as (ws & _ & E).
  assert (Hrun : forall g ms,
    AddMiddlewares g (ms ++ [rateLimiterStage p] ++ map (createMiddleware logger) outer)
      w r st
    = Returned tt
        (with_output
           (output st ++ map (Println logger) (rev outer)
            ++ map (Println logger) outer)
           (with_wire (wire st2 ++ map (pair (connOf w)) tooManyRequests)
              (with_writers ws st2)))).
  { intros g ms. rewrite app_assoc.
    replace (AddMiddlewares g ((ms ++ [rateLimiterStage p])
                               ++ map (createMiddleware logger) outer))
      with (AddMiddlewares (AddMiddlewares g (ms ++ [rateLimiterStage p]))
              (map (createMiddleware logger) outer))
      by (symmetry; apply fold_left_app).
    rewrite createMiddleware_chain, AddMiddlewares_snoc.
    unfold bind. rewrite printAll_output. fold st1.
    rewrite (rateLimiterStage_refuses p lim) by assumption.
    fold st2. rewrite E, printAll_output. f_equal.
    unfold with_output. simpl. now rewrite <- app_assoc. }
  eexists. split; [apply Hrun|]. simpl. split.
  - now rewrite map_app.
  - split; [reflexivity|]. intros h' inner'. apply Hrun.
Qed.

Lemma RateLimiter_short_circuits_witness :
  limiters (with_limiters [mkLimiter (EveryNs 10000000) 2 0 0] emptyWorld) !! 0%nat
  = Some (mkLimiter (EveryNs 10000000) 2 0 0)
  /\ fst (reserveN (mkLimiter (EveryNs 10000000) 2 0 0) 0) = false
  /\ exists st',
       AddMiddlewares (HandlerFunc [CallPrintln "log" "the handler"])
         (map (createMiddleware "log") ["one"%string] ++ [rateLimiterStage 0]
          ++ map (createMiddleware "log") ["two"%string; "three"%string])
         (ServerWriter 0) anyRequest
         (with_limiters [mkLimiter (EveryNs 10000000) 2 0 0] emptyWorld)
       = Returned tt st'
       /\ output st'
          = map (Println "log") ["three"; "two"; "two"; "three"]%string.
Proof.
  split; [reflexivity|]. split; [reflexivity|].
  destruct (RateLimiter_short_circuits "log" ["one"%string]
              ["two"%string; "three"%string] 0%nat
              (mkLimiter (EveryNs 10000000) 2 0 0)
              (HandlerFunc [CallPrintln "log" "the handler"]) (ServerWriter 0)
              anyRequest
              (with_limiters [mkLimiter (EveryNs 10000000) 2 0 0] emptyWorld)
              eq_refl eq_refl) as (st' & E & O & _).
  exists st'. split; [exact E|exact O].
Defined.

Lemma Error_recorded p e code msg st i :
  writers st !! p = Some i ->
  exists st',
    Error (InfoPtr p e) msg code st = Returned tt st'
    /\ writers st' !! p = Some (mkInfo code (responseError i))
    /\ output st' = output st /\ clock st' = clock st
    /\ wire st' = wire st ++ map (pair (connOf e))
                    [HeaderSet "Content-Type" "text/plain; charset=utf-8";
                     HeaderSet "X-Content-Type-Options" "nosniff";
                     WroteHeader code; Wrote (String.append msg newline)].
Proof.
  intros Hp. unfold Error, bind, SetHeader, Write, send, modify.
  match goal with |- context [WriteHeader ?w code ?s] =>
    pose proof (execStmt_recorded (CallWriteHeader code) p e s i Hp) as Hs;
    destruct (WriteHeader_effect w code s) as (ws & _ & E)
  end.
  change (execStmt (InfoPtr p e) (CallWriteHeader code))
    with (WriteHeader (InfoPtr p e) code) in Hs.
  rewrite E in Hs. rewrite E. destruct Hs as [_ Hs]. simpl in Hs.
  eexists. split; [reflexivity|]. simpl. rewrite <- !app_assoc. auto.
Qed.

(** X9. Where [Logger] stands decides whether refusals are logged.
    Registered after the limiter (outside it), [Logger] logs a refused
    request, with status 429, at info level; registered before it (inside
    it), [Logger] does not run and nothing is logged. *)
Theorem RateLimiter_refusal_in_the_log name p lim h conn r st :
  limiters st !! p = Some lim ->
  fst (reserveN lim (clock st)) = false ->
  (exists st',
      AddMiddlewares h [rateLimiterStage p; Logger (Some name)]
        (ServerWriter conn) r st = Returned tt st'
      /\ output st'
         = output st
           ++ [Logrus name (requestEntry r (mkInfo StatusTooManyRequests None) 0)])
  /\ (exists st',
      AddMiddlewares h [Logger (Some name); rateLimiterStage p]
        (ServerWriter conn) r st = Returned tt st'
      /\ output st' = output st).
Proof.
  intros Hp Hno. split.
  - set (q := length (writers st)).
    set (st1 := with_writers (writers st ++ [mkInfo StatusOK None]) st).
    set (rw := InfoPtr q (ServerWriter conn)).
    set (st2 := with_limiters (<[p := snd (reserveN lim (clock st1))]> (limiters st1)) st1).
    destruct (Error_recorded q (ServerWriter conn) StatusTooManyRequests
                (StatusText StatusTooManyRequests) st2 (mkInfo StatusOK None))
      as (st3 & E & W3 & O3 & C3 & _).
    { apply fresh_wrapper_lookup. }
    assert (Hin : rateLimiterStage p h rw r st1 = Returned tt st3).
    { rewrite (rateLimiterStage_refuses p lim) by assumption. exact E. }
    pose proof (Logger_returns name (rateLimiterStage p h) (ServerWriter conn) r st
                  rw st1 st3 (mkInfo StatusTooManyRequests None) eq_refl Hin) as Hout.
    eexists. split.
    + simpl. apply Hout. unfold readInfo. simpl. now rewrite W3.
    + simpl. rewrite O3, C3. simpl. now rewrite Z.sub_diag.
  - destruct (Error_effect (ServerWriter conn)
                (with_limiters (<[p := snd (reserveN lim (clock st))]> (limiters st)) st))
      as (ws & _ & E).
    eexists. split.
    + simpl. rewrite (rateLimiterStage_refuses p lim) by assumption. exact E.
    + reflexivity.
Qed.

Lemma RateLimiter_refusal_in_the_log_witness :
  limiters (with_limiters [mkLimiter (EveryNs 10000000) 2 0 0] emptyWorld) !! 0%nat
  = Some (mkLimiter (EveryNs 10000000) 2 0 0)
  /\ fst (reserveN (mkLimiter (EveryNs 10000000) 2 0 0) 0) = false
  /\ (exists st',
      AddMiddlewares (HandlerFunc []) [rateLimiterStage 0; Logger (Some "log"%string)]
        (ServerWriter 0) anyRequest
        (with_limiters [mkLimiter (EveryNs 10000000) 2 0 0] emptyWorld)
      = Returned tt st'
      /\ output st'
         = [Logrus "log" (requestEntry anyRequest (mkInfo 429 None) 0)])
  /\ (exists st',
      AddMiddlewares (HandlerFunc []) [Logger (Some "log"%string); rateLimiterStage 0]
        (ServerWriter 0) anyRequest
        (with_limiters [mkLimiter (EveryNs 10000000) 2 0 0] emptyWorld)
      = Returned tt st'
      /\ output st' = []).
Proof.
  split; [reflexivity|]. split; [reflexivity|].
  apply (RateLimiter_refusal_in_the_log "log" 0%nat
           (mkLimiter (EveryNs 10000000) 2 0 0) (HandlerFunc []) 0%nat anyRequest
           (with_limiters [mkLimiter (EveryNs 10000000) 2 0 0] emptyWorld)
           eq_refl eq_refl).
Defined.

End ShortCircuitFacts.

Module RateBoundFacts.
Import Middleware WriterFacts LimiterFacts.

(** ** Requests over time *)

Lemma wireFresh_clock st t : wireFresh st -> wireFresh (with_clock t st).
Proof. intros Hf c call Hin. apply (Hf c call Hin). Qed.

(** One request through the limiter, around the empty handler. *)
Lemma serve_decides p lim r st :
  limiters st !! p = Some lim -> wireFresh st ->
  exists st',
    serve (rateLimiterStage p (HandlerFunc [])) r st
    = Returned (Some (if fst (reserveN lim (clock st))
                      then StatusOK else StatusTooManyRequests)) st'
    /\ limiters st' = <[p := snd (reserveN lim (clock st))]> (limiters st)
    /\ clock st' = clock st /\ wireFresh st'.
Proof.
  intros Hp Hf. destruct (fst (reserveN lim (clock st))) eqn:Hd.
  - rewrite (serve_allowed p lim r st Hp Hd Hf). eexists. split; [reflexivity|].
    repeat split. now apply wireFresh_next'.
  - rewrite (serve_rejected p lim r st Hp Hd Hf). eexists. split; [reflexivity|].
    repeat split. now apply wireFresh_next.
Qed.

Lemma serveEach_cons d delays h r st :
  serveEach (d :: delays) h r st
  = match serve h r (with_clock (clock st + Z.max 0 d) st) with
    | Returned s st1 =>
        match serveEach delays h r st1 with
        | Returned ss st2 => Returned (s :: ss) st2
        | Panicked v st2 => Panicked v st2
        end
    | Panicked v st1 => Panicked v st1
    end.
Proof. reflexivity. Qed.

Section Schedule.

Variables (p : nat) (r : Request).

(** A limiter that decides the same way whenever it is asked answers
    every request alike. *)
Lemma serveEach_constant (P : Limiter -> Prop) (b : bool) :
  (forall lim now, P lim ->
     fst (reserveN lim now) = b /\ P (snd (reserveN lim now))) ->
  forall delays st lim,
    limiters st !! p = Some lim -> P lim -> wireFresh st ->
    exists st',
      serveEach delays (rateLimiterStage p (HandlerFunc [])) r st
      = Returned (repeat (Some (if b then StatusOK else StatusTooManyRequests))
                         (length delays)) st'.
Proof.
  intros HP. induction delays as [|d delays IH]; intros st lim Hp Hl Hf.
  - eexists. reflexivity.
  - set (st0 := with_clock (clock st + Z.max 0 d) st).
    destruct (serve_decides p lim r st0 Hp (wireFresh_clock _ _ Hf))
      as (st1 & E1 & L1 & C1 & F1).
    destruct (HP lim (clock st0) Hl) as [Hb Hl'].
    destruct (IH st1 (snd (reserveN lim (clock st0)))) as (st' & E').
    { rewrite L1. apply list_lookup_insert_eq. eapply lookup_lt_Some; eauto. }
    { exact Hl'. }
    { exact F1. }
    exists st'. rewrite serveEach_cons. fold st0.
    rewrite E1, E', Hb. reflexivity.
Qed.

End Schedule.

Lemma RateLimiter_built interval L B st0 :
  RateLimiter interval L B st0
  = Returned (rateLimiterStage (length (limiters st0)))
      (with_limiters
         (limiters st0
          ++ [SetBurstAt (mkLimiter (Every interval) L (L * tokenOf (Every interval))
                            (clock st0)) (clock st0) B]) st0).
Proof.
  unfold RateLimiter, bind, NewLimiter, SetBurst, withLimiter. simpl.
  rewrite fresh_lookup. unfold ret, with_limiters. simpl.
  now rewrite fresh_insert.
Qed.

(** X11. The edges of the parameters.  With an interval of zero or less
    the rate is infinite and every request passes, whatever limit and
    burst; with a positive interval and a burst of zero or less every
    request is refused, however long the client waits. *)
Theorem RateLimiter_edges interval L B delays r st0 :
  wireFresh st0 ->
  (interval <= 0 ->
   exists st',
     (mw <- RateLimiter interval L B ;;
      serveEach delays (AddMiddlewares (HandlerFunc []) [mw]) r) st0
     = Returned (repeat (Some StatusOK) (length delays)) st')
  /\ (0 < interval -> B <= 0 ->
      exists st',
        (mw <- RateLimiter interval L B ;;
         serveEach delays (AddMiddlewares (HandlerFunc []) [mw]) r) st0
        = Returned (repeat (Some StatusTooManyRequests) (length delays)) st').
Proof.
  intros Hf. split.
  - intros Hi. unfold bind. rewrite RateLimiter_built.
    unfold Every. assert ((interval <=? 0) = true) as -> by lia.
    eapply (serveEach_constant (length (limiters st0)) r
              (fun lim => limit lim = Inf) true).
    + intros lim now Hl. unfold reserveN. rewrite Hl. auto.
    + apply fresh_lookup.
    + reflexivity.
    + intros c call Hin. apply (Hf c call Hin).
  - intros Hi HB. unfold bind. rewrite RateLimiter_built.
    unfold Every. assert ((interval <=? 0) = false) as -> by lia.
    eapply (serveEach_constant (length (limiters st0)) r
              (fun lim => limit lim = EveryNs interval /\ burst lim = B) false).
    + intros lim now [Hl Hb]. unfold reserveN. rewrite Hl, Hb.
      destruct (advance lim now) as [l t].
      assert ((1 <=? B) = false) as -> by lia. simpl. auto.
    + apply fresh_lookup.
    + unfold SetBurstAt. destruct (advance _ _). split; reflexivity.
    + intros c call Hin. apply (Hf c call Hin).
Qed.

Lemma RateLimiter_edges_witness :
  wireFresh emptyWorld
  /\ 0 <= 0
  /\ exists st',
       (mw <- RateLimiter 0 1 1 ;;
        serveEach [0; 0; 0] (AddMiddlewares (HandlerFunc []) [mw]) anyRequest)
         emptyWorld
       = Returned (repeat (Some StatusOK) (length [0; 0; 0])) st'.
Proof.
  split; [apply wireFresh_empty|]. split; [lia|].
  destruct (RateLimiter_edges 0 1 1 [0; 0; 0] anyRequest emptyWorld wireFresh_empty)
    as [H _].
  apply H. lia.
Defined.

End RateBoundFacts.

Module CounterFacts.
Import Middleware WriterFacts LimiterFacts BodyFacts.

(** ** Prometheus around a handler *)








End CounterFacts.

Module ShutdownFacts.
Import Server ServerFacts.

Section Liveness.

Variable server : Server.
Variable waitTime : Z.
Variable logger : ShutdownLogger.

Local Abbreviation step := (step server waitTime logger).
Local Abbreviation exec := (exec server waitTime logger).
Local Abbreviation shape := (shape server waitTime logger).

(** ** Before any signal *)

Lemma runs_only schedule :
  forallb isRun schedule = true -> schedule = repeat Run (length schedule).
Proof.
  induction schedule as [|[sig|] l IH]; simpl; intros H;
    [reflexivity|discriminate|]. now rewrite <- IH.
Qed.

Lemma blocked_stays n s :
  fault s = None -> pc s = AtReceive -> gracefulStop s = [] ->
  exec (repeat Run n) s = s.
Proof.
  intros Hf Hpc Hbuf. induction n as [|n IH]; [reflexivity|].
  simpl. unfold Server.step. now rewrite Hf, Hpc, Hbuf.
Qed.

(** X13. No signal, no shutdown.  As long as no termination signal is
    delivered, however long the goroutine runs, [Shutdown] is not called
    and the returned channel stays open; after its three steps of set-up
    the goroutine waits at the receive. *)
Theorem no_signal_no_shutdown schedule :
  forallb isRun schedule = true ->
  let s := exec schedule GracefulShutdown in
  idleConnsClosed s = false
  /\ count isShutdown (trace s) = 0%nat
  /\ count isClose (trace s) = 0%nat
  /\ fault s = None
  /\ ((3 <= length schedule)%nat ->
      pc s = AtReceive /\ gracefulStop s = []
      /\ subscribed s = [SIGTERM; SIGINT]).
Proof.
  intros H. rewrite (runs_only schedule H). rewrite repeat_length.
  destruct (length schedule) as [|[|[|n]]]; simpl.
  - repeat split; lia.
  - repeat split; lia.
  - repeat split; lia.
  - rewrite blocked_stays by reflexivity. simpl. repeat split.
Qed.

(** ** From the receive to the end *)

(** X14. One signal is enough.  Once the goroutine waits at the receive,
    the delivery of one termination signal, whatever else is delivered
    after it, leads within six steps of the goroutine to the end: [Shutdown]
    called once, the channel closed, no panic. *)
Theorem one_signal_suffices schedule sig more :
  let s := exec schedule GracefulShutdown in
  pc s = AtReceive ->
  (6 <= count isRun more)%nat ->
  let s' := exec (Deliver sig :: more) s in
  pc s' = Exited
  /\ idleConnsClosed s' = true
  /\ fault s' = None
  /\ count isShutdown (trace s') = 1%nat
  /\ count isClose (trace s') = 1%nat.
Proof.
  intros s Hpc Hk s'.
  pose proof (reachable_shape server waitTime logger schedule) as H. fold s in H.
  assert (Hd : shape (deliver sig s)) by now apply shape_deliver.
  assert (Hpc' : pc (deliver sig s) = AtReceive /\ gracefulStop (deliver sig s) <> []).
  { destruct H as (_ & Hsub & _ & _ & _ & Hfault).
    unfold deliver. rewrite Hpc in *.
    destruct (fault s) as [[]|];
      [destruct Hfault; congruence|contradiction|contradiction|].
    rewrite Hsub.
    destruct sig; simpl; destruct (gracefulStop s) eqn:Hb; simpl; rewrite ?Hb;
      split; auto; discriminate. }
  destruct Hpc' as [Hpc' Hbuf].
  destruct (waiting_progress server waitTime logger more (deliver sig s)
              Hd Hpc' Hbuf Hk) as [Hex Hsh].
  change (exec more (deliver sig s)) with s' in *.
  pose proof Hsh as Hsh'.
  destruct Hsh as ([sig0 Htr] & _ & Hcl & _ & _ & Hfault).
  rewrite Hex in *.
  destruct (traceAt_counts server waitTime logger sig0 Exited) as (_ & Hc & _).
  destruct (Hc eq_refl) as (C1 & C2 & _).
  split; [reflexivity|]. split; [exact Hcl|]. split.
  - destruct (shape_observed server waitTime logger s' Hsh') as [Hf _]; auto.
    unfold signalObserved. now rewrite Hex.
  - rewrite Htr. auto.
Qed.

(** ** Before the subscription *)

(** X15. A termination signal that arrives before its [signal.Notify]
    has run takes its default action: the process stops, and whatever is
    scheduled afterwards [Shutdown] is not called and the channel is not
    closed. *)
Theorem early_signal_stops_the_process schedule sig more :
  let s := exec schedule GracefulShutdown in
  fault s = None ->
  existsb (Signal_eqb sig) (subscribed s) = false ->
  let s' := exec (Deliver sig :: more) s in
  fault s' = Some (KilledBy sig)
  /\ idleConnsClosed s' = false
  /\ count isShutdown (trace s') = 0%nat
  /\ count isClose (trace s') = 0%nat.
Proof.
  intros s Hf Hsig s'.
  pose proof (reachable_shape server waitTime logger schedule) as H. fold s in H.
  assert (Hk : deliver sig s = crash (KilledBy sig) s).
  { unfold deliver. now rewrite Hf, Hsig. }
  assert (Hs' : s' = crash (KilledBy sig) s).
  { unfold s'. simpl. rewrite Hk.
    now apply (dead_stays server waitTime logger more _ (KilledBy sig)). }
  rewrite Hs'. simpl.
  destruct H as ([sig0 Htr] & Hsub & Hcl & _).
  rewrite Hsub in Hsig. rewrite Htr, Hcl.
  destruct (pc s), sig; simpl in Hsig; try discriminate; repeat split.
Qed.

End Liveness.

Lemma no_signal_no_shutdown_witness :
  forallb isRun (repeat Run 10) = true
  /\ idleConnsClosed
       (exec (mkServer (fun _ => None)) 5000000000 None (repeat Run 10)
          GracefulShutdown) = false
  /\ count isShutdown
       (trace (exec (mkServer (fun _ => None)) 5000000000 None (repeat Run 10)
                 GracefulShutdown)) = 0%nat.
Proof.
  split; [reflexivity|].
  pose proof (no_signal_no_shutdown (mkServer (fun _ => None)) 5000000000 None
                (repeat Run 10) eq_refl) as H.
  cbv zeta in H. destruct H as (H1 & H2 & _). split; assumption.
Defined.

Lemma one_signal_suffices_witness :
  pc (exec (mkServer (fun _ => None)) 5000000000 None [Run; Run; Run]
        GracefulShutdown) = AtReceive
  /\ (6 <= count isRun [Run; Deliver SIGINT; Run; Run; Run; Run; Run])%nat
  /\ pc (exec (mkServer (fun _ => None)) 5000000000 None
           (Deliver SIGTERM :: [Run; Deliver SIGINT; Run; Run; Run; Run; Run])
           (exec (mkServer (fun _ => None)) 5000000000 None [Run; Run; Run]
              GracefulShutdown)) = Exited.
Proof.
  split; [reflexivity|]. split; [simpl; lia|].
  pose proof (one_signal_suffices (mkServer (fun _ => None)) 5000000000 None
                [Run; Run; Run] SIGTERM
                [Run; Deliver SIGINT; Run; Run; Run; Run; Run]) as H.
  cbv zeta in H. apply H; [reflexivity|simpl; lia].
Defined.

Lemma early_signal_stops_the_process_witness :
  fault (exec (mkServer (fun _ => None)) 5000000000 None [Run; Run]
           GracefulShutdown) = None
  /\ existsb (Signal_eqb SIGINT)
       (subscribed (exec (mkServer (fun _ => None)) 5000000000 None [Run; Run]
                      GracefulShutdown)) = false
  /\ fault (exec (mkServer (fun _ => None)) 5000000000 None
              (Deliver SIGINT :: [Run; Run; Run; Run])
              (exec (mkServer (fun _ => None)) 5000000000 None [Run; Run]
                 GracefulShutdown)) = Some (KilledBy SIGINT).
Proof.
  split; [reflexivity|]. split; [reflexivity|].
  pose proof (early_signal_stops_the_process (mkServer (fun _ => None)) 5000000000
                None [Run; Run] SIGINT [Run; Run; Run; Run]) as H.
  cbv zeta in H. apply H; reflexivity.
Defined.

End ShutdownFacts.
